(** * Payroll consolidation: a shallow embedding of [app.py]

    The core helpers of the application ([process_payroll_file],
    [derive_ref_columns], [reorder_like_reference], [consolidate] and the
    "Run" block that calls them) are rendered as Rocq functions over a small
    model of the pandas objects they manipulate.

    Conventions of the model.
    - A Python [str] is a [string]; the model covers ASCII text, so the
      regular-expression class [\d] is the ten ASCII digits and [str.lower]
      touches the letters A to Z only.
    - A [DataFrame] is an ordered list of column labels together with its
      rows; a row maps labels to cells.  Labels are strings.  Floating-point
      cells are not modelled; every missing value (NaN, NaT, None) is the
      cell [CNull].
    - [pd.read_excel] is not modelled: an upload carries the table the
      reader makes of it, or nothing when the reader raises.  The reader
      numbers repeated headers, so its tables have distinct labels
      ([unique_labels]); pandas raises when asked to reindex duplicate
      labels.
    - Timestamps have nanosecond resolution, which bounds the dates
      [pd.to_datetime] accepts.
    - Python exceptions are values of [exn]; a function that may raise
      returns a [result]. *)

From Stdlib Require Import ZArith Ascii String List Bool Lia DecimalString.
From stdpp Require Import base option list gmap sets strings.

Local Open Scope string_scope.
Local Open Scope list_scope.

(** ** Text primitives *)

Module Text.

Definition is_digit (c : ascii) : bool :=
  let n := nat_of_ascii c in (48 <=? n)%nat && (n <=? 57)%nat.

Definition newline : ascii := ascii_of_nat 10.

(** [str.lower] on one character. *)
Definition lower_char (c : ascii) : ascii :=
  let n := nat_of_ascii c in
  if (65 <=? n)%nat && (n <=? 90)%nat then ascii_of_nat (n + 32) else c.

Fixpoint lower (s : string) : string :=
  match s with
  | EmptyString => EmptyString
  | String c s' => String (lower_char c) (lower s')
  end.

(** [sub in s] *)
Fixpoint contains (sub s : string) : bool :=
  String.prefix sub s ||
  match s with
  | EmptyString => false
  | String _ s' => contains sub s'
  end.

(** [s.endswith(suffix)] *)
Fixpoint endswith (s suffix : string) : bool :=
  String.eqb s suffix ||
  match s with
  | EmptyString => false
  | String _ s' => endswith s' suffix
  end.

Fixpoint has_char (d : ascii) (s : string) : bool :=
  match s with
  | EmptyString => false
  | String c s' => Ascii.eqb c d || has_char d s'
  end.

(** [s.rsplit(".", 1)[0]]: everything before the last dot, the whole
    string when there is none. *)
Fixpoint rsplit_dot_head (s : string) : string :=
  match s with
  | EmptyString => EmptyString
  | String c s' =>
      if has_char "." s' then String c (rsplit_dot_head s')
      else if Ascii.eqb c "." then EmptyString
      else String c (rsplit_dot_head s')
  end.

(** [s.split("-", 1)]: one piece when there is no hyphen, otherwise the
    text before the first hyphen and the text after it. *)
Fixpoint split_hyphen (s : string) : string * option string :=
  match s with
  | EmptyString => (EmptyString, None)
  | String c s' =>
      if Ascii.eqb c "-" then (EmptyString, Some s')
      else let '(h, t) := split_hyphen s' in (String c h, t)
  end.

(** *** The regular expressions of the source

    Without [re.MULTILINE], [$] holds at the end of the subject and also
    just before a line feed that is the subject's last character. *)
Definition at_dollar (rest : string) : bool :=
  match rest with
  | EmptyString => true
  | String c EmptyString => Ascii.eqb c newline
  | _ => false
  end.

Fixpoint skip_digits (s : string) : string :=
  match s with
  | EmptyString => EmptyString
  | String c s' => if is_digit c then skip_digits s' else s
  end.

(** A match of [\d+$] starting at the head of [s]; the value is the text
    left after the match.  [\d+] is greedy; giving digits back cannot help,
    since [$] never holds in front of a digit. *)
Definition match_digits_dollar (s : string) : option string :=
  match s with
  | EmptyString => None
  | String c s' =>
      if is_digit c then
        let rest := skip_digits s' in
        if at_dollar rest then Some rest else None
      else None
  end.

(** [re.sub(r"\d+$", "", s)]: the leftmost match is removed.  What is left
    after a match is empty or a lone line feed, so the scan finds no second
    match and the remainder is copied. *)
Fixpoint re_sub_trailing_digits (s : string) : string :=
  match match_digits_dollar s with
  | Some rest => rest
  | None =>
      match s with
      | EmptyString => EmptyString
      | String c s' => String c (re_sub_trailing_digits s')
      end
  end.

(** [n] digits at the head of [s]; the value is the text after them. *)
Fixpoint eat_digits (n : nat) (s : string) : option string :=
  match n with
  | O => Some s
  | S n' =>
      match s with
      | String c s' => if is_digit c then eat_digits n' s' else None
      | EmptyString => None
      end
  end.

Definition eat_char (d : ascii) (s : string) : option string :=
  match s with
  | String c s' => if Ascii.eqb c d then Some s' else None
  | EmptyString => None
  end.

(** [re.match(r"^\d{3}-\d{6}$", s)] succeeds. *)
Definition match_employee_id (s : string) : bool :=
  match eat_digits 3 s with
  | Some s1 =>
      match eat_char "-" s1 with
      | Some s2 =>
          match eat_digits 6 s2 with
          | Some rest => at_dollar rest
          | None => false
          end
      | None => false
      end
  | None => false
  end.

End Text.

(** ** Column ordering of [reorder_like_reference] *)

Module Reconciler.

(** [[i for i, c in enumerate(new_order) if base and base in c]], the
    enumeration starting at index [i]. *)
Fixpoint near_from (i : nat) (base : string) (new_order : list string)
  : list nat :=
  match new_order with
  | [] => []
  | c :: rest =>
      if negb (String.eqb base "") && Text.contains base c
      then i :: near_from (S i) base rest
      else near_from (S i) base rest
  end.

Definition near (base : string) (new_order : list string) : list nat :=
  near_from 0 base new_order.

(** [l.insert(i, x)] *)
Definition list_insert_at {A} (i : nat) (x : A) (l : list A) : list A :=
  take i l ++ x :: drop i l.

(** One iteration of the loop over [extras]. *)
Definition place_extra (new_order : list string) (col : string)
  : list string :=
  let base := Text.re_sub_trailing_digits col in
  match last (near base new_order) with
  | Some i => list_insert_at (i + 1) col new_order
  | None => new_order ++ [col]
  end.

Definition extras (all_cols ref_cols : list string) : list string :=
  filter (λ c, c ∉ ref_cols) all_cols.

Definition insert_extras (all_cols ref_cols : list string) : list string :=
  foldl place_extra ref_cols (extras all_cols ref_cols).

(** The two loops that build [out], with the set [seen]. *)
Definition keep_known (all_cols : list string)
    (acc : list string * gset string) (c : string)
  : list string * gset string :=
  let '(out, seen) := acc in
  if decide ((c ∉ seen) ∧ (c ∈ all_cols)) then (out ++ [c], {[c]} ∪ seen)
  else (out, seen).

Definition add_missing (acc : list string * gset string) (c : string)
  : list string * gset string :=
  let '(out, seen) := acc in
  if decide (c ∉ seen) then (out ++ [c], {[c]} ∪ seen) else (out, seen).

Definition final_order (all_cols ref_cols : list string) : list string :=
  let new_order := insert_extras all_cols ref_cols in
  let acc := foldl (keep_known all_cols) ([], ∅) new_order in
  fst (foldl add_missing acc all_cols).

End Reconciler.

(** ** Dates as [pd.to_datetime(..., format="%m%d%Y", errors="coerce")] sees them *)

Module Dates.

Record date := Date { year : Z; month : Z; day : Z }.

Definition digit_val (c : ascii) : Z := Z.of_nat (nat_of_ascii c) - 48.

Definition is_leap (y : Z) : bool :=
  ((y mod 4 =? 0) && negb (y mod 100 =? 0) || (y mod 400 =? 0))%Z.

Definition days_in_month (y m : Z) : Z :=
  if (m =? 2)%Z then (if is_leap y then 29 else 28)
  else if ((m =? 4) || (m =? 6) || (m =? 9) || (m =? 11))%Z then 30
  else 31.

(** The range of a nanosecond [Timestamp] at midnight:
    1677-09-22 to 2262-04-11. *)
Definition in_timestamp_bounds (d : date) : bool :=
  let key := (year d * 10000 + month d * 100 + day d)%Z in
  ((16770922 <=? key) && (key <=? 22620411))%Z.

(** The alternatives of a directive, in the order the regular expression
    tries them; each gives the value read and the text that follows. *)
Definition directive_m (s : string) : list (Z * string) :=
  match s with
  | String a (String b r) =>
      (if Ascii.eqb a "1" && (Ascii.eqb b "0" || Ascii.eqb b "1" || Ascii.eqb b "2")
       then [((10 + digit_val b)%Z, r)] else []) ++
      (if Ascii.eqb a "0" && Text.is_digit b && negb (Ascii.eqb b "0")
       then [(digit_val b, r)] else []) ++
      (if Text.is_digit a && negb (Ascii.eqb a "0")
       then [(digit_val a, String b r)] else [])
  | String a EmptyString =>
      if Text.is_digit a && negb (Ascii.eqb a "0")
      then [(digit_val a, EmptyString)] else []
  | EmptyString => []
  end.

Definition directive_d (s : string) : list (Z * string) :=
  match s with
  | String a (String b r) =>
      (if Ascii.eqb a "3" && (Ascii.eqb b "0" || Ascii.eqb b "1")
       then [((30 + digit_val b)%Z, r)] else []) ++
      (if (Ascii.eqb a "1" || Ascii.eqb a "2") && Text.is_digit b
       then [((10 * digit_val a + digit_val b)%Z, r)] else []) ++
      (if Ascii.eqb a "0" && Text.is_digit b && negb (Ascii.eqb b "0")
       then [(digit_val b, r)] else []) ++
      (if Text.is_digit a && negb (Ascii.eqb a "0")
       then [(digit_val a, String b r)] else []) ++
      (if Ascii.eqb a " " && Text.is_digit b && negb (Ascii.eqb b "0")
       then [(digit_val b, r)] else [])
  | String a EmptyString =>
      if Text.is_digit a && negb (Ascii.eqb a "0")
      then [(digit_val a, EmptyString)] else []
  | EmptyString => []
  end.

Definition directive_Y (s : string) : option (Z * string) :=
  match s with
  | String a (String b (String c (String d r))) =>
      if Text.is_digit a && Text.is_digit b && Text.is_digit c && Text.is_digit d
      then Some ((1000 * digit_val a + 100 * digit_val b
                  + 10 * digit_val c + digit_val d)%Z, r)
      else None
  | _ => None
  end.

(** The first match of the compiled format at the head of [s]. *)
Definition match_mdY (s : string) : option (date * string) :=
  head (omap (λ '(m, d, rest),
                match directive_Y rest with
                | Some (y, rest') => Some (Date y m d, rest')
                | None => None
                end)
             (m_r ← directive_m s;
              d_r ← directive_d m_r.2;
              [(m_r.1, d_r.1, d_r.2)])).

(** One element of the column: the match must cover the whole text and
    the fields must form a date a [Timestamp] can hold; anything else is
    coerced to [NaT]. *)
Definition strptime_mdY (s : string) : option date :=
  match match_mdY s with
  | Some (d, EmptyString) =>
      if (day d <=? days_in_month (year d) (month d))%Z && in_timestamp_bounds d
      then Some d else None
  | _ => None
  end.

(** [strftime("%B")] *)
Definition month_name (m : Z) : string :=
  match m with
  | 1 => "January" | 2 => "February" | 3 => "March" | 4 => "April"
  | 5 => "May" | 6 => "June" | 7 => "July" | 8 => "August"
  | 9 => "September" | 10 => "October" | 11 => "November"
  | _ => "December"
  end%Z.

End Dates.

(** ** Tables *)

Module Frame.

Import Dates.

Inductive cell :=
| CStr (s : string)
| CInt (n : Z)
| CTimestamp (d : date)
| CNull.

Inductive exn :=
| ParseError        (* the workbook cannot be read as a table *)
| DuplicateLabels   (* reindexing or aligning an axis with duplicate labels *)
| NoObjects.        (* [pd.concat] of an empty list *)

Inductive result (A : Type) :=
| Ok (a : A)
| Raise (e : exn).
Arguments Ok {A} a.
Arguments Raise {A} e.

#[global] Instance result_ret : MRet result := λ A a, Ok a.
#[global] Instance result_bind : MBind result := λ A B k r,
  match r with
  | Ok a => k a
  | Raise e => Raise e
  end.

Record DataFrame := mkFrame {
  columns : list string;
  rows : list (gmap string cell)
}.

(** The invariant of a table that comes out of the reader: its labels
    are distinct. *)
Definition unique_labels (df : DataFrame) : Prop := NoDup (columns df).

Definition empty_frame : DataFrame := mkFrame [] [].

(** The value of a row under a label; an absent label reads as missing. *)
Definition get (r : gmap string cell) (c : string) : cell :=
  default CNull (r !! c).

Definition pad (width : nat) (s : string) : string :=
  String.concat "" (replicate (width - String.length s) "0") +:+ s.

Definition str_of_Z (n : Z) : string :=
  DecimalString.NilZero.string_of_int (Z.to_int n).

(** [str(x)] of a cell, as [astype(str)] computes it. *)
Definition astype_str (c : cell) : string :=
  match c with
  | CStr s => s
  | CInt n => str_of_Z n
  | CTimestamp d =>
      pad 4 (str_of_Z (year d)) +:+ "-" +:+ pad 2 (str_of_Z (month d))
      +:+ "-" +:+ pad 2 (str_of_Z (day d)) +:+ " 00:00:00"
  | CNull => "nan"
  end.

(** [df[c] = series], the series given row by row: an existing column
    keeps its place, a new one goes last. *)
Definition set_column (c : string) (f : gmap string cell → cell)
    (df : DataFrame) : DataFrame :=
  mkFrame (if decide (c ∈ columns df) then columns df else columns df ++ [c])
          (map (λ r, <[c := f r]> r) (rows df)).

(** [df.drop(columns=[c], errors="ignore")] *)
Definition drop_column (c : string) (df : DataFrame) : DataFrame :=
  mkFrame (filter (λ x, x ≠ c) (columns df)) (map (delete c) (rows df)).

Definition restrict (cols : list string) (r : gmap string cell)
  : gmap string cell :=
  filter (λ kv, kv.1 ∈ cols) r.

(** [df[cols]] for labels that exist *)
Definition select (cols : list string) (df : DataFrame) : DataFrame :=
  mkFrame cols (map (restrict cols) (rows df)).

(** [df[mask]] *)
Definition filter_rows (keep : gmap string cell → bool) (df : DataFrame)
  : DataFrame :=
  mkFrame (columns df) (List.filter keep (rows df)).

Definition reindex_row (cols : list string) (r : gmap string cell)
  : gmap string cell :=
  list_to_map (map (λ c, (c, get r c)) cols).

(** [df.reindex(columns=cols)]: a label the table lacks becomes a column
    of missing values; a table with duplicate labels cannot be
    reindexed. *)
Definition reindex (cols : list string) (df : DataFrame) : result DataFrame :=
  if decide (columns df = cols) then Ok df
  else if decide (NoDup (columns df))
       then Ok (mkFrame cols (map (reindex_row cols) (rows df)))
       else Raise DuplicateLabels.

Definition union_columns (dfs : list DataFrame) : list string :=
  foldl (λ acc df, acc ++ filter (λ c, c ∉ acc) (columns df)) [] dfs.

(** [pd.concat(dfs, ignore_index=True)]: rows one table after the other
    under the union of the labels in order of first appearance.  Text,
    timestamps and missing values are carried over as they are.  pandas
    stores a column of whole numbers as floating point once the merged
    column has a missing entry (some table lacks the label), so that 100
    comes out as 100.0 and a whole number beyond 2^53 is rounded; the
    model keeps the [CInt] cell, and what is stated below about the cells
    of a table merged from several tables is stated for the other kinds of
    cell. *)
Definition concat (dfs : list DataFrame) : result DataFrame :=
  match dfs with
  | [] => Raise NoObjects
  | df0 :: _ =>
      if decide (Forall (λ df, columns df = columns df0) dfs)
      then Ok (mkFrame (columns df0) (dfs ≫= rows))
      else if decide (Forall unique_labels dfs)
      then let cols := union_columns dfs in
           Ok (mkFrame cols (dfs ≫= λ df, map (reindex_row cols) (rows df)))
      else Raise DuplicateLabels
  end.

End Frame.

(** ** The helpers of [app.py] *)

Module App.

Import Text Dates Frame Reconciler.

(** An uploaded file: its name and what [pd.read_excel(..., header=3)]
    makes of its bytes, [None] when the reader raises. *)
Record file_like := mkFile {
  name : string;
  content : option DataFrame
}.

Definition read_excel (f : file_like) : result DataFrame :=
  match content f with
  | Some df => Ok df
  | None => Raise ParseError
  end.

(** [df.drop(df.index[:2])] when there are at least two rows *)
Definition drop_blank_rows (df : DataFrame) : DataFrame :=
  if (2 <=? length (rows df))%nat
  then mkFrame (columns df) (drop 2 (rows df))
  else df.

Definition valid_employee_id (r : gmap string cell) : bool :=
  match_employee_id (astype_str (get r "Employee ID*")).

Definition filter_employee_id (df : DataFrame) : DataFrame :=
  if decide ("Employee ID*" ∈ columns df)
  then filter_rows valid_employee_id df
  else df.

Definition period_of (name : string) : string :=
  if String.eqb name "" then "" else rsplit_dot_head name.

(** One row of [df["Payroll Period"].str.split("-", n=1, expand=True)],
    padded to two columns. *)
Definition split_df (r : gmap string cell) : cell * cell :=
  match get r "Payroll Period" with
  | CStr s =>
      let '(h, t) := split_hyphen s in
      (CStr h, match t with Some x => CStr x | None => CNull end)
  | _ => (CNull, CNull)
  end.

(** One element of [pd.to_datetime(col, format="%m%d%Y", errors="coerce")] *)
Definition to_datetime (c : cell) : cell :=
  match c with
  | CStr s =>
      match strptime_mdY s with
      | Some d => CTimestamp d
      | None => CNull
      end
  | CTimestamp d => CTimestamp d
  | _ => CNull
  end.

(** One element of [col.dt.day]; [None] is NaN. *)
Definition dt_day (c : cell) : option Z :=
  match c with
  | CTimestamp d => Some (day d)
  | _ => None
  end.

(** The function mapped over the days.  [Series.map] calls it on every
    element, the missing ones included; NaN equals no number. *)
Definition cutoff_of_day (x : option Z) : string :=
  match x with
  | Some n =>
      if (n =? 15)%Z then "First Cutoff"
      else if ((n =? 30) || (n =? 31))%Z then "Second Cutoff"
      else "Other"
  | None => "Other"
  end.

(** One element of [col.dt.strftime("%B")] *)
Definition dt_month_name (c : cell) : cell :=
  match c with
  | CTimestamp d => CStr (month_name (month d))
  | _ => CNull
  end.

Definition leading : list string :=
  ["Payroll Type"; "Payroll Date"; "Month"; "Cutoff Type"].

Definition process_payroll_file (file : file_like) : result DataFrame :=
  df ← read_excel file;
  let df := drop_blank_rows df in
  let df := filter_employee_id df in
  let period := period_of (name file) in
  let df := set_column "Payroll Period" (λ _, CStr period) df in
  let df := set_column "Payroll Type" (λ r, (split_df r).1) df in
  let df := set_column "Payroll Date" (λ r, (split_df r).2) df in
  let df := set_column "Payroll Date"
              (λ r, to_datetime (get r "Payroll Date")) df in
  let df := set_column "Cutoff Type"
              (λ r, CStr (cutoff_of_day (dt_day (get r "Payroll Date")))) df in
  let df := set_column "Month"
              (λ r, dt_month_name (get r "Payroll Date")) df in
  let df := drop_column "Payroll Period" df in
  let remaining := filter (λ c, c ∉ leading) (columns df) in
  Ok (select (leading ++ remaining) df).

Definition derive_ref_columns (ref_uploaded : file_like)
  : result (list string) :=
  ref_df ← process_payroll_file ref_uploaded;
  Ok (columns ref_df).

Definition reorder_like_reference (final_df : DataFrame)
    (ref_cols : list string) : result DataFrame :=
  reindex (final_order (columns final_df) ref_cols) final_df.

(** The accumulators of [consolidate]; [warned] lists the files reported
    through [st.warning]. *)
Record acc := mkAcc {
  dfs : list DataFrame;
  processed : list string;
  skipped : list string;
  seen_bases : gset string;
  warned : list string
}.

Definition acc0 : acc := mkAcc [] [] [] ∅ [].

(** The body of the loop over the uploads. *)
Definition visit (a : acc) (uf : file_like) : acc :=
  if negb (endswith (lower (name uf)) ".xlsx") then a
  else
    let base := rsplit_dot_head (name uf) in
    if decide (base ∈ seen_bases a)
    then mkAcc (dfs a) (processed a) (skipped a ++ [name uf])
               (seen_bases a) (warned a)
    else
      let seen' := {[base]} ∪ seen_bases a in
      match process_payroll_file (mkFile (name uf) (content uf)) with
      | Ok df => mkAcc (dfs a ++ [df]) (processed a ++ [name uf])
                       (skipped a) seen' (warned a)
      | Raise _ => mkAcc (dfs a) (processed a) (skipped a) seen'
                         (warned a ++ [name uf])
      end.

Definition visit_all (uploads : list file_like) : acc :=
  foldl visit acc0 uploads.

Definition finish (a : acc) (ref_cols : list string)
  : result (DataFrame * list string * list string) :=
  match dfs a with
  | [] => Ok (empty_frame, processed a, skipped a)
  | _ =>
      final_df ← concat (dfs a);
      final_df ← reorder_like_reference final_df ref_cols;
      Ok (final_df, processed a, skipped a)
  end.

Definition consolidate (payroll_uploads : list file_like)
    (ref_cols : list string)
  : result (DataFrame * list string * list string) :=
  finish (visit_all payroll_uploads) ref_cols.

(** What a click on "Process files" leads to. *)
Inductive outcome :=
| NeedReference
| NeedPayrollFiles
| NeedConfirmation
| ReferenceFailed (e : exn)       (* [st.error] then [st.stop()] *)
| ConsolidateRaised (e : exn)
| NoFilesProcessed
| Completed (final_df : DataFrame) (processed_files skipped_dups : list string).

Definition run (ref_file : option file_like)
    (payroll_files : list file_like) (confirmed : bool) : outcome :=
  match ref_file with
  | None => NeedReference
  | Some ref =>
      if (length payroll_files =? 0)%nat then NeedPayrollFiles
      else if negb confirmed then NeedConfirmation
      else
        match derive_ref_columns ref with
        | Raise e => ReferenceFailed e
        | Ok ref_columns =>
            match consolidate payroll_files ref_columns with
            | Raise e => ConsolidateRaised e
            | Ok (final_df, processed_files, skipped_dups) =>
                if bool_decide (columns final_df = [] ∨ rows final_df = [])
                then NoFilesProcessed
                else Completed final_df processed_files skipped_dups
            end
        end
  end.

End App.

Import Text Dates Frame Reconciler App.

(** * Vocabulary of the statements *)

(** What the two closing loops maintain: [out] has no repetition, [seen]
    is the set of its elements, and all of them are labels of the table. *)
Definition tidy (all_cols : list string)
    (a : list string * gset string) : Prop :=
  NoDup a.1 ∧ (∀ c, c ∈ a.2 ↔ c ∈ a.1) ∧ (∀ c, c ∈ a.1 → c ∈ all_cols).

(** Every character of [s] is a digit. *)
Fixpoint all_digits (s : string) : bool :=
  match s with
  | EmptyString => true
  | String c s' => is_digit c && all_digits s'
  end.

(** The name without its maximal run of trailing digits, as the
    specification words it. *)
Fixpoint without_trailing_digits (s : string) : string :=
  match s with
  | EmptyString => EmptyString
  | String c s' =>
      if all_digits s then EmptyString
      else String c (without_trailing_digits s')
  end.

Definition line_feed : string := String newline EmptyString.

Fixpoint ends_with_line_feed (s : string) : bool :=
  match s with
  | EmptyString => false
  | String c EmptyString => Ascii.eqb c newline
  | String _ s' => ends_with_line_feed s'
  end.

(** Three digits, a hyphen and six digits, and nothing else: the identifier
    pattern as the specification words it. *)
Definition three_hyphen_six (s : string) : bool :=
  match s with
  | String d1 (String d2 (String d3 (String h (String e1 (String e2
      (String e3 (String e4 (String e5 (String e6 EmptyString))))))))) =>
      is_digit d1 && is_digit d2 && is_digit d3 && Ascii.eqb h "-"
      && is_digit e1 && is_digit e2 && is_digit e3 && is_digit e4
      && is_digit e5 && is_digit e6
  | _ => false
  end.


(** The rows of a table without its two leading rows, all of them when the
    table has fewer than two. *)
Definition after_leading_rows (raw : DataFrame) : list (gmap string cell) :=
  if (2 <=? length (rows raw))%nat then drop 2 (rows raw) else rows raw.

(** Position [i] of [order] is the last one whose name contains [base]. *)
Definition last_match (base : string) (order : list string) (i : nat) : Prop :=
  (∃ c, order !! i = Some c ∧ contains base c = true) ∧
  ∀ j c, i < j → order !! j = Some c → contains base c = false.

(** The placement rule for one extra column, for a given way [strip] of
    computing [base] from the column's name. *)
Definition placement_rule (strip : string → string) : Prop :=
  ∀ (new_order : list string) (col : string),
    (∀ i, strip col ≠ "" → last_match (strip col) new_order i →
          place_extra new_order col
          = take (S i) new_order ++ col :: drop (S i) new_order) ∧
    (strip col = "" ∨ (∀ c, c ∈ new_order → contains (strip col) c = false) →
     place_extra new_order col = new_order ++ [col]).

(** The columns of the raw table that extraction hands back: those named
    neither like a derived field nor like the helper column. *)
Definition others (raw : DataFrame) : list string :=
  filter (λ c, (c ∉ leading) ∧ (c ≠ "Payroll Period")) (columns raw).

(** The rows of the raw table that survive the two row steps. *)
Definition kept (raw : DataFrame) : list (gmap string cell) :=
  rows (filter_employee_id (drop_blank_rows raw)).

(** The derived fields, as functions of the file name alone. *)
Definition payroll_type_of (file_name : string) : cell :=
  CStr (split_hyphen (period_of file_name)).1.

Definition payroll_date_of (file_name : string) : cell :=
  match (split_hyphen (period_of file_name)).2 with
  | Some fragment => to_datetime (CStr fragment)
  | None => CNull
  end.

(** What the column assignments do to one row. *)
Definition augment (period : string) (r : gmap string cell)
  : gmap string cell :=
  let r := <["Payroll Period" := CStr period]> r in
  let r := <["Payroll Type" := (split_df r).1]> r in
  let r := <["Payroll Date" := (split_df r).2]> r in
  let r := <["Payroll Date" := to_datetime (get r "Payroll Date")]> r in
  let r := <["Cutoff Type" :=
               CStr (cutoff_of_day (dt_day (get r "Payroll Date")))]> r in
  let r := <["Month" := dt_month_name (get r "Payroll Date")]> r in
  delete "Payroll Period" r.

(** The labels after [df[c] = ...]. *)
Definition add_label (c : string) (l : list string) : list string :=
  if decide (c ∈ l) then l else l ++ [c].

(** Sample workbooks. *)
Module Samples.

Definition ann : gmap string cell :=
  {[ "Employee ID*" := CStr "012-345678"; "Name" := CStr "Ann";
     "Month" := CInt 3; "Payroll Period" := CStr "old" ]}.

Definition bob : gmap string cell :=
  {[ "Employee ID*" := CStr "12-345678"; "Name" := CStr "Bob";
     "Month" := CInt 4; "Payroll Period" := CStr "old" ]}.

(** Two spacer rows, then three data rows, one with a malformed
    identifier. *)
Definition sheet : DataFrame :=
  mkFrame ["Employee ID*"; "Month"; "Name"; "Payroll Period"]
          [∅; ∅; ann; bob; ann].

Definition plain : DataFrame :=
  mkFrame ["Name"] [ {[ "Name" := CStr "Ann" ]} ].


(** Two spacer rows and one row whose identifier ends with a line feed. *)
Definition trailing : DataFrame :=
  mkFrame ["Employee ID*"]
          [ ∅; ∅; {[ "Employee ID*" := CStr ("012-345678" +:+ line_feed) ]} ].

(** Four rows and no identifier column. *)
Definition roster : DataFrame :=
  mkFrame ["Name"]
          [ {[ "Name" := CStr "Ann" ]}; {[ "Name" := CStr "Bob" ]};
            {[ "Name" := CStr "Cy" ]}; {[ "Name" := CStr "Di" ]} ].

(** What consolidating the one workbook [sheet] against its own layout
    returns. *)
Definition consolidated : DataFrame * list string * list string :=
  match consolidate [mkFile "Regular-01152024.xlsx" (Some sheet)]
          ["Payroll Type"; "Payroll Date"; "Month"; "Cutoff Type";
           "Employee ID*"; "Name"] with
  | Ok res => res
  | Raise _ => (empty_frame, [], [])
  end.

End Samples.

(** The file passes the extension test of the loop. *)
Definition accepted (uf : file_like) : bool :=
  endswith (lower (name uf)) ".xlsx".

Definition base_of (uf : file_like) : string := rsplit_dot_head (name uf).

(** What the loop obtains when it extracts the file. *)
Definition extraction (uf : file_like) : result DataFrame :=
  process_payroll_file (mkFile (name uf) (content uf)).

Definition extracted (uf : file_like) : option DataFrame :=
  match extraction uf with
  | Ok df => Some df
  | Raise _ => None
  end.

Definition processed_name (uf : file_like) : option string :=
  match extraction uf with
  | Ok _ => Some (name uf)
  | Raise _ => None
  end.

Definition failed_name (uf : file_like) : option string :=
  match extraction uf with
  | Ok _ => None
  | Raise _ => Some (name uf)
  end.

(** The base names reserved once the loop has gone through [l]. *)
Fixpoint seen_after (seen : gset string) (l : list file_like) : gset string :=
  match l with
  | [] => seen
  | uf :: l' =>
      if accepted uf then seen_after ({[base_of uf]} ∪ seen) l'
      else seen_after seen l'
  end.

(** The files of [l] that reach extraction: accepted, and first with their
    base name. *)
Fixpoint attempted (seen : gset string) (l : list file_like)
  : list file_like :=
  match l with
  | [] => []
  | uf :: l' =>
      if accepted uf then
        if decide (base_of uf ∈ seen) then attempted seen l'
        else uf :: attempted ({[base_of uf]} ∪ seen) l'
      else attempted seen l'
  end.

(** The accepted files of [l] whose base name is already reserved at
    their turn. *)
Fixpoint duplicates (seen : gset string) (l : list file_like)
  : list file_like :=
  match l with
  | [] => []
  | uf :: l' =>
      if accepted uf then
        if decide (base_of uf ∈ seen) then uf :: duplicates seen l'
        else duplicates ({[base_of uf]} ∪ seen) l'
      else duplicates seen l'
  end.

(** Every readable upload has distinct labels. *)
Definition readable_unique (uf : file_like) : Prop :=
  ∀ raw, content uf = Some raw → unique_labels raw.

(** The derived fields of a row, and a view of an extraction result that
    shows the columns and those fields. *)
Definition derived_fields (r : gmap string cell) : cell * cell * cell * cell :=
  (get r "Payroll Type", get r "Payroll Date", get r "Month",
   get r "Cutoff Type").

Definition fields_of (res : result DataFrame)
  : option (list string * list (cell * cell * cell * cell)) :=
  match res with
  | Ok df => Some (columns df, map derived_fields (rows df))
  | Raise _ => None
  end.

(** * Properties *)

(** ** The column order of the Reconciler *)

Section FinalOrder.

Variable all_cols : list string.

Lemma tidy_start : tidy all_cols ([], ∅).
Proof.
  split; [| split]; simpl; [constructor | set_solver..].
Qed.

Lemma tidy_push out seen c :
  tidy all_cols (out, seen) → c ∉ seen → c ∈ all_cols →
  tidy all_cols (out ++ [c], {[c]} ∪ seen).
Proof.
  intros (Hnd & Hseen & Hsub) Hc Hin; simpl in *.
  split; [| split]; simpl.
  - apply NoDup_app. repeat split; [done | | apply NoDup_singleton].
    intros x Hx Hx'. apply list_elem_of_singleton in Hx' as ->.
    apply Hc, Hseen, Hx.
  - intros x. rewrite elem_of_union, elem_of_singleton, elem_of_app,
      list_elem_of_singleton, Hseen. tauto.
  - intros x. rewrite elem_of_app, list_elem_of_singleton.
    intros [Hx | ->]; auto.
Qed.

Lemma keep_known_tidy a c : tidy all_cols a → tidy all_cols (keep_known all_cols a c).
Proof.
  destruct a as [out seen]; intros Ht; unfold keep_known.
  case_decide as Hc; [| done]. destruct Hc. by apply tidy_push.
Qed.

Lemma add_missing_tidy a c :
  c ∈ all_cols → tidy all_cols a → tidy all_cols (add_missing a c).
Proof.
  destruct a as [out seen]; intros Hin Ht; unfold add_missing.
  case_decide; [by apply tidy_push | done].
Qed.

Lemma foldl_keep_known_tidy l a :
  tidy all_cols a → tidy all_cols (foldl (keep_known all_cols) a l).
Proof.
  revert a; induction l as [| c l IH]; intros a Ht; simpl; [done |].
  apply IH, keep_known_tidy, Ht.
Qed.

Lemma foldl_add_missing_tidy l a :
  (∀ c, c ∈ l → c ∈ all_cols) → tidy all_cols a → tidy all_cols (foldl add_missing a l).
Proof.
  revert a; induction l as [| c l IH]; intros a Hl Ht; simpl; [done |].
  apply IH.
  - intros x Hx. apply Hl. by right.
  - apply add_missing_tidy; [apply Hl; left | done].
Qed.

Lemma add_missing_seen a c x :
  x ∈ a.2 ∨ x = c → x ∈ (add_missing a c).2.
Proof.
  destruct a as [out seen]; unfold add_missing; simpl.
  destruct (decide (c ∉ seen)) as [Hc | Hc]; simpl.
  { rewrite elem_of_union, elem_of_singleton. tauto. }
  intros [Hx | ->]; [done |].
  destruct (decide (c ∈ seen)); [done | by destruct Hc].
Qed.

Lemma foldl_add_missing_seen l a x :
  x ∈ a.2 ∨ x ∈ l → x ∈ (foldl add_missing a l).2.
Proof.
  revert a; induction l as [| c l IH]; intros a; simpl.
  - intros [Hx | Hx]; [done | by apply elem_of_nil in Hx].
  - intros [Hx | Hx]; apply IH.
    + left. apply add_missing_seen. by left.
    + apply elem_of_cons in Hx as [-> | Hx]; [left | by right].
      apply add_missing_seen. by right.
Qed.

Lemma final_order_tidy ref_cols :
  NoDup (final_order all_cols ref_cols) ∧
  ∀ c, c ∈ final_order all_cols ref_cols ↔ c ∈ all_cols.
Proof.
  unfold final_order.
  set (acc1 := foldl (keep_known all_cols) ([], ∅)
                 (insert_extras all_cols ref_cols)).
  assert (Ht : tidy all_cols (foldl add_missing acc1 all_cols)).
  { apply foldl_add_missing_tidy; [done |].
    apply foldl_keep_known_tidy, tidy_start. }
  destruct Ht as (Hnd & Hseen & Hsub).
  split; [done |]. intros c; split; [apply Hsub |].
  intros Hc. apply Hseen, foldl_add_missing_seen. by right.
Qed.

End FinalOrder.

(** C1. For every table (its labels distinct, as the tables of the reader
    are) and every canonical list, [reorder_like_reference] returns a table
    whose columns are the labels of the input, each exactly once: none is
    dropped, none is repeated, and no label foreign to the input appears,
    whatever the canonical list holds. *)
Theorem reorder_like_reference_columns (final_df : DataFrame)
    (ref_cols : list string) :
  unique_labels final_df →
  ∃ out, reorder_like_reference final_df ref_cols = Ok out ∧
         NoDup (columns out) ∧
         (∀ c, c ∈ columns out ↔ c ∈ columns final_df) ∧
         length (columns out) = length (columns final_df).
Proof.
  intros Hu.
  destruct (final_order_tidy (columns final_df) ref_cols) as [Hnd Hset].
  unfold reorder_like_reference, reindex.
  case_decide as Heq.
  - exists final_df. by rewrite <- Heq in Hnd.
  - rewrite decide_True by exact Hu.
    eexists; split; [done |]; simpl. repeat split; try done; try apply Hset.
    apply Permutation_length, NoDup_Permutation; done.
Qed.

Lemma reorder_like_reference_columns_witness :
  ∃ out, reorder_like_reference
           (mkFrame ["B"; "Pay2"; "A"; "Pay"] [∅]) ["A"; "Pay"; "Z"; "B"; "A"]
         = Ok out ∧
         NoDup (columns out) ∧
         (∀ c, c ∈ columns out ↔ c ∈ ["B"; "Pay2"; "A"; "Pay"]) ∧
         length (columns out) = 4.
Proof.
  apply (reorder_like_reference_columns
           (mkFrame ["B"; "Pay2"; "A"; "Pay"] [∅]) ["A"; "Pay"; "Z"; "B"; "A"]).
  unfold unique_labels; simpl. apply (bool_decide_unpack _). vm_compute. exact I.
Defined.

(** ** Placement of the extra columns *)

Section Placement.

Lemma last_match_unique base order i j :
  last_match base order i → last_match base order j → i = j.
Proof.
  intros [(c & Hc & Hm) Hi] [(d & Hd & Hn) Hj].
  destruct (lt_eq_lt_dec i j) as [[Hlt | ->] | Hlt]; [| done |].
  - rewrite (Hi j d Hlt Hd) in Hn. discriminate.
  - rewrite (Hj i c Hlt Hc) in Hm. discriminate.
Qed.

Lemma near_from_nil i base order :
  near_from i base order = [] →
  base = "" ∨ ∀ c, c ∈ order → contains base c = false.
Proof.
  revert i; induction order as [| c order IH]; intros i; simpl.
  - intros _. right. intros c Hc. by apply elem_of_nil in Hc.
  - destruct (String.eqb_spec base "") as [-> | Hne]; [by left |]; simpl.
    destruct (contains base c) eqn:Hc; [done |].
    intros Hn. destruct (IH _ Hn) as [-> | Hall]; [done |].
    right. intros x Hx. apply elem_of_cons in Hx as [-> | Hx]; auto.
Qed.

Lemma near_from_last i base order k :
  last (near_from i base order) = Some k →
  base ≠ "" ∧ ∃ j, k = i + j ∧ last_match base order j.
Proof.
  revert i; induction order as [| c order IH]; intros i; simpl; [done |].
  destruct (String.eqb_spec base "") as [-> | Hne]; simpl.
  { intros Hk. by destruct (IH _ Hk) as [? _]. }
  destruct (contains base c) eqn:Hc.
  - rewrite last_cons.
    destruct (last (near_from (S i) base order)) as [k' |] eqn:Hl.
    + intros [= <-]. destruct (IH _ Hl) as (_ & j & -> & [Hex Hlast]).
      split; [done |]. exists (S j). split; [lia |]. split; [done |].
      intros [| j'] d Hlt Hd; [lia |]. apply (Hlast j' d); [lia | done].
    + intros [= <-]. split; [done |]. exists 0. split; [lia |].
      split; [by exists c |].
      intros [| j'] d Hlt Hd; [lia |]. simpl in Hd.
      apply last_None in Hl.
      destruct (near_from_nil _ _ _ Hl) as [-> | Hall]; [done |].
      apply Hall. by eapply list_elem_of_lookup_2.
  - intros Hk. destruct (IH _ Hk) as (_ & j & -> & [Hex Hlast]).
    split; [done |]. exists (S j). split; [lia |]. split; [done |].
    intros [| j'] d Hlt Hd; [lia |]. apply (Hlast j' d); [lia | done].
Qed.

(** The loop body follows the placement rule with the [base] that
    [re.sub] computes. *)
Lemma place_extra_rule : placement_rule re_sub_trailing_digits.
Proof.
  intros new_order col. unfold place_extra, near.
  set (base := re_sub_trailing_digits col).
  destruct (last (near_from 0 base new_order)) as [k |] eqn:Hl.
  - destruct (near_from_last _ _ _ _ Hl) as (Hne & j & -> & Hj).
    split.
    + intros i _ Hi. rewrite (last_match_unique _ _ _ _ Hi Hj).
      unfold list_insert_at. by replace (0 + j + 1) with (S j) by lia.
    + intros [He | Hnone]; [done |].
      destruct Hj as [(c & Hc & Hm) _].
      rewrite Hnone in Hm; [done | by eapply list_elem_of_lookup_2].
  - split; [| done].
    intros i Hne [(c & Hc & Hm) _].
    apply last_None in Hl.
    destruct (near_from_nil _ _ _ Hl) as [He | Hnone]; [done |].
    rewrite Hnone in Hm; [done | by eapply list_elem_of_lookup_2].
Qed.

End Placement.

(** ** What [re.sub] leaves of a name *)

Section TrailingDigits.

Lemma skip_all_digits s : all_digits s = true → skip_digits s = "".
Proof.
  induction s as [| c s IH]; simpl; [done |].
  destruct (is_digit c); simpl; [exact IH | done].
Qed.

Lemma ends_with_line_feed_tail c s :
  ends_with_line_feed (String c s) = false → ends_with_line_feed s = false.
Proof. destruct s; simpl; auto. Qed.

Lemma at_dollar_skip s :
  ends_with_line_feed s = false → at_dollar (skip_digits s) = all_digits s.
Proof.
  induction s as [| c s IH]; [done |].
  intros He. pose proof (ends_with_line_feed_tail _ _ He) as He'. simpl.
  destruct (is_digit c); simpl; [by apply IH |].
  destruct s; simpl in *; done.
Qed.

Lemma re_sub_plain s :
  ends_with_line_feed s = false →
  re_sub_trailing_digits s = without_trailing_digits s.
Proof.
  induction s as [| c s IH]; [done |].
  intros He. pose proof (ends_with_line_feed_tail _ _ He) as He'.
  cbn [re_sub_trailing_digits without_trailing_digits all_digits
       match_digits_dollar].
  destruct (is_digit c); simpl.
  - rewrite (at_dollar_skip _ He').
    destruct (all_digits s) eqn:Hd; [by apply skip_all_digits |].
    by rewrite IH.
  - by rewrite IH.
Qed.

Lemma skip_all_digits_line_feed s :
  all_digits s = true → skip_digits (s +:+ line_feed) = line_feed.
Proof.
  induction s as [| c s IH]; simpl; [done |].
  destruct (is_digit c); simpl; [exact IH | done].
Qed.

Lemma at_dollar_skip_line_feed s :
  at_dollar (skip_digits (s +:+ line_feed)) = all_digits s.
Proof.
  induction s as [| c s IH]; [done |]. simpl.
  destruct (is_digit c); simpl; [exact IH |]. by destruct s.
Qed.

Lemma re_sub_line_feed s :
  re_sub_trailing_digits (s +:+ line_feed)
  = without_trailing_digits s +:+ line_feed.
Proof.
  induction s as [| c s IH]; [done |].
  change (String c s +:+ line_feed) with (String c (s +:+ line_feed)).
  cbn [re_sub_trailing_digits without_trailing_digits all_digits
       match_digits_dollar].
  destruct (is_digit c); simpl.
  - rewrite at_dollar_skip_line_feed.
    destruct (all_digits s) eqn:Hd; [by apply skip_all_digits_line_feed |].
    by rewrite IH.
  - by rewrite IH.
Qed.

End TrailingDigits.

(** C8, as the claim words it, fails: with [base] the name without its
    trailing digits, the column named "a1" followed by a line feed would be
    appended after "z", but the code puts it right after the name "a"
    followed by a line feed. *)
Lemma placement_by_trailing_digits_fails :
  ¬ placement_rule without_trailing_digits.
Proof.
  intros H.
  destruct (H ["a" +:+ line_feed; "z"] ("a1" +:+ line_feed)) as [_ Happend].
  assert (Hp : place_extra ["a" +:+ line_feed; "z"] ("a1" +:+ line_feed)
               = ["a" +:+ line_feed; "z"] ++ ["a1" +:+ line_feed]).
  { apply Happend. right. intros c Hc.
    apply elem_of_cons in Hc as [-> | Hc]; [by vm_compute |].
    apply list_elem_of_singleton in Hc as ->. by vm_compute. }
  vm_compute in Hp. discriminate Hp.
Qed.

(** C8, amended. The extra columns are the table's columns absent from the
    canonical list, taken in the table's order; for each, [base] is the name
    without the run of digits at its end, or without the run of digits just
    before its final line feed when the name ends with one; if [base] is
    non-empty and some name of the current order contains it, the column
    goes right after the last such name, otherwise it goes last. *)
Theorem extras_placement :
  (∀ all_cols ref_cols,
     insert_extras all_cols ref_cols
     = foldl place_extra ref_cols (filter (λ c, c ∉ ref_cols) all_cols)) ∧
  placement_rule re_sub_trailing_digits ∧
  (∀ s, ends_with_line_feed s = false →
        re_sub_trailing_digits s = without_trailing_digits s) ∧
  (∀ s, re_sub_trailing_digits (s +:+ line_feed)
        = without_trailing_digits s +:+ line_feed).
Proof.
  split; [done |]. split; [exact place_extra_rule |].
  split; [exact re_sub_plain | exact re_sub_line_feed].
Qed.

(** ** Extraction *)

Section Extraction.

Lemma filter_add_label (P : string → Prop) `{!∀ x, Decision (P x)} c l :
  ¬ P c → filter P (add_label c l) = filter P l.
Proof.
  intros Hc. unfold add_label. case_decide; [done |].
  rewrite filter_app, filter_cons_False, filter_nil by done.
  apply app_nil_r.
Qed.

Lemma elem_of_add_label c x l : x ∈ add_label c l ↔ x ∈ l ∨ x = c.
Proof.
  unfold add_label. case_decide as Hc.
  - split; [by left | by intros [? | ->]].
  - by rewrite elem_of_app, list_elem_of_singleton.
Qed.

Lemma NoDup_add_label c l : NoDup l → NoDup (add_label c l).
Proof.
  intros Hl. unfold add_label. case_decide as Hc; [done |].
  apply NoDup_app. repeat split; [done | | apply NoDup_singleton].
  intros x Hx Hx'. by apply list_elem_of_singleton in Hx' as ->.
Qed.

Lemma columns_drop_blank_rows raw :
  columns (drop_blank_rows raw) = columns raw.
Proof. unfold drop_blank_rows. by case_match. Qed.

Lemma kept_spec raw :
  kept raw = if decide ("Employee ID*" ∈ columns raw)
             then List.filter valid_employee_id (rows (drop_blank_rows raw))
             else rows (drop_blank_rows raw).
Proof.
  unfold kept, filter_employee_id. rewrite columns_drop_blank_rows.
  by case_decide.
Qed.

Lemma columns_kept raw :
  columns (filter_employee_id (drop_blank_rows raw)) = columns raw.
Proof.
  unfold filter_employee_id, drop_blank_rows.
  repeat case_match; done.
Qed.

Lemma get_insert_eq (r : gmap string cell) c v : get (<[c := v]> r) c = v.
Proof. unfold get. by rewrite lookup_insert_eq. Qed.

Lemma get_insert_ne (r : gmap string cell) c d v :
  c ≠ d → get (<[c := v]> r) d = get r d.
Proof. intros. unfold get. by rewrite lookup_insert_ne. Qed.

Lemma columns_set_column c f df :
  columns (set_column c f df) = add_label c (columns df).
Proof. done. Qed.

Lemma rows_set_column c f df :
  rows (set_column c f df) = map (λ r, <[c := f r]> r) (rows df).
Proof. done. Qed.

Lemma others_of_assigned raw :
  filter (λ c, c ∉ leading)
    (filter (λ x, x ≠ "Payroll Period")
       (add_label "Month" (add_label "Cutoff Type"
          (add_label "Payroll Date" (add_label "Payroll Date"
             (add_label "Payroll Type"
                (add_label "Payroll Period" (columns raw))))))))
  = others raw.
Proof.
  rewrite list_filter_filter. unfold others.
  rewrite !filter_add_label; [done | ..]; intros [Hn Hp]; try done;
    apply Hn; unfold leading; rewrite !elem_of_cons; auto 6.
Qed.

(** The table that extraction returns for a readable workbook. *)
Lemma process_payroll_file_shape file_name raw :
  process_payroll_file (mkFile file_name (Some raw))
  = Ok (mkFrame (leading ++ others raw)
          (map (λ r, restrict (leading ++ others raw)
                       (augment (period_of file_name) r))
               (kept raw))).
Proof.
  unfold process_payroll_file, read_excel.
  cbn [content name mbind result_bind].
  f_equal. unfold select, drop_column.
  cbn [columns rows].
  rewrite !columns_set_column, !rows_set_column, columns_kept.
  rewrite others_of_assigned, !map_map. done.
Qed.

Lemma restrict_lookup_in cols (r : gmap string cell) c :
  c ∈ cols → restrict cols r !! c = r !! c.
Proof.
  intros Hc. unfold restrict. destruct (r !! c) as [v |] eqn:Hr.
  - by apply map_lookup_filter_Some_2.
  - apply map_lookup_filter_None_2. by left.
Qed.

Lemma restrict_lookup_out cols (r : gmap string cell) c :
  c ∉ cols → restrict cols r !! c = None.
Proof.
  intros Hc. unfold restrict. apply map_lookup_filter_None_2.
  right. intros v _ Hin. by apply Hc.
Qed.

Lemma split_df_period (r : gmap string cell) period :
  get r "Payroll Period" = CStr period →
  split_df r = (CStr (split_hyphen period).1,
                match (split_hyphen period).2 with
                | Some x => CStr x
                | None => CNull
                end).
Proof. intros Hp. unfold split_df. rewrite Hp. by destruct (split_hyphen period). Qed.

Lemma to_datetime_fragment file_name :
  to_datetime match (split_hyphen (period_of file_name)).2 with
              | Some x => CStr x
              | None => CNull
              end
  = payroll_date_of file_name.
Proof. unfold payroll_date_of. by destruct (split_hyphen _).2. Qed.

(** The derived fields of an augmented row depend on the file name only. *)
Lemma augment_derived file_name (r : gmap string cell) :
  let r' := augment (period_of file_name) r in
  r' !! "Payroll Type" = Some (payroll_type_of file_name) ∧
  r' !! "Payroll Date" = Some (payroll_date_of file_name) ∧
  r' !! "Cutoff Type"
    = Some (CStr (cutoff_of_day (dt_day (payroll_date_of file_name)))) ∧
  r' !! "Month" = Some (dt_month_name (payroll_date_of file_name)) ∧
  r' !! "Payroll Period" = None.
Proof.
  unfold augment.
  set (p := period_of file_name).
  set (r1 := <["Payroll Period" := CStr p]> r).
  assert (H1 : split_df r1 = (CStr (split_hyphen p).1,
                              match (split_hyphen p).2 with
                              | Some x => CStr x
                              | None => CNull
                              end)).
  { apply split_df_period. unfold r1. apply get_insert_eq. }
  set (r2 := <["Payroll Type" := (split_df r1).1]> r1).
  assert (H2 : split_df r2 = split_df r1).
  { rewrite H1. apply split_df_period. unfold r2.
    rewrite get_insert_ne by done. unfold r1. apply get_insert_eq. }
  set (r3 := <["Payroll Date" := (split_df r2).2]> r2).
  assert (H3 : get r3 "Payroll Date" = (split_df r1).2).
  { unfold r3. by rewrite get_insert_eq, H2. }
  set (r4 := <["Payroll Date" := to_datetime (get r3 "Payroll Date")]> r3).
  assert (H4 : r4 !! "Payroll Date" = Some (payroll_date_of file_name)).
  { unfold r4. rewrite lookup_insert_eq, H3, H1. f_equal.
    apply to_datetime_fragment. }
  assert (H4' : get r4 "Payroll Date" = payroll_date_of file_name).
  { unfold get. by rewrite H4. }
  rewrite H4'.
  set (r5 := <["Cutoff Type" := _]> r4).
  assert (H5 : r5 !! "Payroll Date" = Some (payroll_date_of file_name)).
  { unfold r5. by rewrite lookup_insert_ne. }
  assert (H5' : get r5 "Payroll Date" = payroll_date_of file_name).
  { unfold get. by rewrite H5. }
  rewrite H5'.
  repeat split.
  - rewrite lookup_delete_ne, lookup_insert_ne by done. unfold r5.
    rewrite lookup_insert_ne by done. unfold r4, r3.
    rewrite !lookup_insert_ne by done. unfold r2.
    by rewrite lookup_insert_eq, H1.
  - by rewrite lookup_delete_ne, lookup_insert_ne.
  - rewrite lookup_delete_ne, lookup_insert_ne by done. unfold r5.
    by rewrite lookup_insert_eq.
  - rewrite lookup_delete_ne by done. by rewrite lookup_insert_eq.
  - by rewrite lookup_delete_eq.
Qed.

(** A label that is neither derived nor the helper keeps the row's value. *)
Lemma augment_other period (r : gmap string cell) c :
  c ∉ leading → c ≠ "Payroll Period" → augment period r !! c = r !! c.
Proof.
  intros Hl Hp. unfold augment, leading in *.
  rewrite !not_elem_of_cons in Hl. destruct Hl as (? & ? & ? & ? & _).
  cbv zeta.
  rewrite lookup_delete_ne, !lookup_insert_ne by done. done.
Qed.

Lemma elem_of_others raw c :
  c ∈ others raw ↔
  (c ∈ columns raw) ∧ (c ∉ leading) ∧ (c ≠ "Payroll Period").
Proof. unfold others. rewrite list_elem_of_filter. tauto. Qed.

Lemma elem_of_map {A B} (f : A → B) (l : list A) (y : B) :
  y ∈ map f l ↔ ∃ x, y = f x ∧ x ∈ l.
Proof.
  rewrite list_elem_of_In, in_map_iff. split.
  - intros (x & <- & Hin). exists x. split; [done | by apply list_elem_of_In].
  - intros (x & -> & Hin). exists x. split; [done | by apply list_elem_of_In].
Qed.

Lemma get_lookup (r : gmap string cell) c v : r !! c = Some v → get r c = v.
Proof. intros H. unfold get. by rewrite H. Qed.

Lemma leading_in_output raw c : c ∈ leading → c ∈ leading ++ others raw.
Proof. intros. apply elem_of_app. by left. Qed.

(** Every row of the extracted table: its derived fields, the absence of
    the helper column, and the row of the raw table it stems from. *)
Lemma extracted_row file_name raw (r' : gmap string cell) :
  r' ∈ map (λ r, restrict (leading ++ others raw)
                   (augment (period_of file_name) r)) (kept raw) →
  r' !! "Payroll Type" = Some (payroll_type_of file_name) ∧
  r' !! "Payroll Date" = Some (payroll_date_of file_name) ∧
  r' !! "Cutoff Type"
    = Some (CStr (cutoff_of_day (dt_day (payroll_date_of file_name)))) ∧
  r' !! "Month" = Some (dt_month_name (payroll_date_of file_name)) ∧
  r' !! "Payroll Period" = None ∧
  ∃ r, r ∈ kept raw ∧ ∀ c, c ∈ others raw → r' !! c = r !! c.
Proof.
  intros Hr. apply elem_of_map in Hr as (r & -> & Hin).
  destruct (augment_derived file_name r) as (Ht & Hd & Hc & Hm & Hp).
  assert (Hl : ∀ c, c ∈ leading → c ∈ leading ++ others raw)
    by apply leading_in_output.
  rewrite !restrict_lookup_in
    by (apply Hl; unfold leading; rewrite !elem_of_cons; auto 6).
  repeat (split; [done |]). split.
  - apply restrict_lookup_out. rewrite elem_of_app, elem_of_others.
    unfold leading. rewrite !elem_of_cons, elem_of_nil.
    intros [[? | [? | [? | [? | []]]]] | (_ & _ & ?)]; done.
  - exists r. split; [done |]. intros c Hc'.
    rewrite restrict_lookup_in by (apply elem_of_app; by right).
    apply elem_of_others in Hc' as (_ & ? & ?). by apply augment_other.
Qed.

Lemma helper_not_in_output raw :
  "Payroll Period" ∉ leading ++ others raw.
Proof.
  rewrite elem_of_app, elem_of_others. unfold leading.
  rewrite !elem_of_cons, elem_of_nil.
  intros [[? | [? | [? | [? | []]]]] | (_ & _ & ?)]; done.
Qed.

Lemma extraction_shape_columns file_name raw :
  process_payroll_file (mkFile file_name (Some raw))
  = Ok (mkFrame (leading ++ others raw)
          (map (λ r, restrict (leading ++ others raw)
                       (augment (period_of file_name) r))
               (kept raw))) ∧
  "Payroll Period" ∉ leading ++ others raw.
Proof. split; [apply process_payroll_file_shape | apply helper_not_in_output]. Qed.

Lemma NoDup_others raw : unique_labels raw → NoDup (leading ++ others raw).
Proof.
  intros Hu. apply NoDup_app. repeat split.
  - unfold leading. apply (bool_decide_unpack _). by vm_compute.
  - intros c Hc Hc'. by apply elem_of_others in Hc' as (_ & ? & _).
  - unfold others. by apply NoDup_filter.
Qed.

(** Extraction of a readable workbook returns a table with distinct
    labels. *)
Lemma process_payroll_file_unique file_name raw out :
  unique_labels raw →
  process_payroll_file (mkFile file_name (Some raw)) = Ok out →
  unique_labels out.
Proof.
  intros Hu. rewrite process_payroll_file_shape. intros [= <-].
  by apply NoDup_others.
Qed.

End Extraction.

Lemma sample_sheet_unique : unique_labels Samples.sheet.
Proof. apply (bool_decide_unpack _). vm_compute. exact I. Defined.

Lemma sample_plain_unique : unique_labels Samples.plain.
Proof. apply (bool_decide_unpack _). vm_compute. exact I. Defined.

(** C4. For every payroll table, the extracted table has [Payroll Type],
    [Payroll Date], [Month], [Cutoff Type] as its first four columns in
    that order, followed by the other original columns in their original
    relative order, and it has no [Payroll Period] column. *)
Theorem extraction_column_order (file_name : string) (raw : DataFrame) :
  unique_labels raw →
  ∃ out, process_payroll_file (mkFile file_name (Some raw)) = Ok out ∧
         take 4 (columns out)
         = ["Payroll Type"; "Payroll Date"; "Month"; "Cutoff Type"] ∧
         drop 4 (columns out)
         = filter (λ c, (c ∉ leading) ∧ (c ≠ "Payroll Period")) (columns raw) ∧
         "Payroll Period" ∉ columns out.
Proof.
  intros _. eexists. split; [apply process_payroll_file_shape |].
  cbn [columns]. repeat split.
  rewrite elem_of_app, elem_of_others. unfold leading.
  rewrite !elem_of_cons, elem_of_nil.
  intros [[? | [? | [? | [? | []]]]] | (_ & _ & ?)]; done.
Qed.

Lemma extraction_column_order_witness :
  ∃ out, process_payroll_file
           (mkFile "Regular-01152024.xlsx" (Some Samples.sheet)) = Ok out ∧
         take 4 (columns out)
         = ["Payroll Type"; "Payroll Date"; "Month"; "Cutoff Type"] ∧
         drop 4 (columns out)
         = filter (λ c, (c ∉ leading) ∧ (c ≠ "Payroll Period"))
             (columns Samples.sheet) ∧
         "Payroll Period" ∉ columns out.
Proof.
  apply (extraction_column_order "Regular-01152024.xlsx" Samples.sheet).
  exact sample_sheet_unique.
Defined.

(** C2, as the claim words it, fails: for the workbook "Regular.xlsx"
    (no hyphen in the base name) the date of the extracted row is missing
    and its [Cutoff Type] is the text [Other], not a missing value. *)
Lemma null_date_cutoff_is_not_null :
  ¬ (∀ file_name raw out (r : gmap string cell),
       unique_labels raw →
       process_payroll_file (mkFile file_name (Some raw)) = Ok out →
       r ∈ rows out →
       get r "Payroll Date" = CNull →
       get r "Cutoff Type" = CNull ∧ get r "Month" = CNull).
Proof.
  intros H.
  pose (r := restrict (leading ++ others Samples.plain)
               (augment (period_of "Regular.xlsx")
                  {[ "Name" := CStr "Ann" ]})).
  destruct (H "Regular.xlsx" Samples.plain _ r sample_plain_unique
              (process_payroll_file_shape _ _)) as [Hcut _].
  - cbn [rows]. apply elem_of_map. eexists. split; [reflexivity |].
    apply list_elem_of_singleton. reflexivity.
  - by vm_compute.
  - vm_compute in Hcut. discriminate Hcut.
Qed.

(** C2, amended. For every extracted row whose [Payroll Date] is missing
    (which happens exactly when the base name has no hyphen or the text
    after the first hyphen does not parse), [Month] is missing and
    [Cutoff Type] is [Other]. *)
Theorem null_date_fields (file_name : string) (raw : DataFrame) :
  unique_labels raw →
  ∃ out, process_payroll_file (mkFile file_name (Some raw)) = Ok out ∧
    ∀ r : gmap string cell, r ∈ rows out →
      (get r "Payroll Date" = CNull ↔
       (split_hyphen (period_of file_name)).2 = None ∨
       ∃ fragment, (split_hyphen (period_of file_name)).2 = Some fragment ∧
                   strptime_mdY fragment = None) ∧
      (get r "Payroll Date" = CNull →
       get r "Cutoff Type" = CStr "Other" ∧ get r "Month" = CNull).
Proof.
  intros _. eexists. split; [apply process_payroll_file_shape |].
  cbn [rows]. intros r Hr.
  destruct (extracted_row _ _ _ Hr) as (_ & Hd & Hc & Hm & _).
  rewrite (get_lookup _ _ _ Hd), (get_lookup _ _ _ Hc), (get_lookup _ _ _ Hm).
  split.
  - unfold payroll_date_of, to_datetime.
    destruct (split_hyphen (period_of file_name)).2 as [fragment |].
    + destruct (strptime_mdY fragment) eqn:Hs; split.
      * done.
      * intros [? | (f & [= <-] & ?)]; congruence.
      * intros _. right. by exists fragment.
      * done.
    + split; [by left | done].
  - intros ->. done.
Qed.

Lemma null_date_fields_witness :
  ∃ out, process_payroll_file (mkFile "Regular.xlsx" (Some Samples.plain))
         = Ok out ∧
    ∀ r : gmap string cell, r ∈ rows out →
      (get r "Payroll Date" = CNull ↔
       (split_hyphen (period_of "Regular.xlsx")).2 = None ∨
       ∃ fragment, (split_hyphen (period_of "Regular.xlsx")).2 = Some fragment ∧
                   strptime_mdY fragment = None) ∧
      (get r "Payroll Date" = CNull →
       get r "Cutoff Type" = CStr "Other" ∧ get r "Month" = CNull).
Proof.
  apply (null_date_fields "Regular.xlsx" Samples.plain).
  exact sample_plain_unique.
Defined.

(** C3. For every extracted row whose [Payroll Date] is a date, [Cutoff
    Type] is [First Cutoff] exactly when the day of the month is 15,
    [Second Cutoff] exactly when it is 30 or 31, and [Other] for every
    other day. *)
Theorem cutoff_of_valid_date (file_name : string) (raw : DataFrame) :
  unique_labels raw →
  ∃ out, process_payroll_file (mkFile file_name (Some raw)) = Ok out ∧
    ∀ (r : gmap string cell) (d : date), r ∈ rows out →
      get r "Payroll Date" = CTimestamp d →
      (get r "Cutoff Type" = CStr "First Cutoff" ↔ day d = 15%Z) ∧
      (get r "Cutoff Type" = CStr "Second Cutoff" ↔
       day d = 30%Z ∨ day d = 31%Z) ∧
      (get r "Cutoff Type" = CStr "Other" ↔
       day d ≠ 15%Z ∧ day d ≠ 30%Z ∧ day d ≠ 31%Z).
Proof.
  intros _. eexists. split; [apply process_payroll_file_shape |].
  cbn [rows]. intros r d Hr.
  destruct (extracted_row _ _ _ Hr) as (_ & Hd & Hc & _).
  rewrite (get_lookup _ _ _ Hd), (get_lookup _ _ _ Hc). intros ->.
  unfold dt_day, cutoff_of_day.
  destruct (Z.eqb_spec (day d) 15) as [-> | H15]; simpl.
  { repeat split; try done; try lia; intros; lia. }
  destruct (Z.eqb_spec (day d) 30) as [-> | H30]; simpl.
  { repeat split; try done; try lia; intros; try lia; auto. }
  destruct (Z.eqb_spec (day d) 31) as [-> | H31]; simpl.
  { repeat split; try done; try lia; intros; try lia; auto. }
  repeat split; try done; try lia; intros; try lia.
Qed.

Lemma cutoff_of_valid_date_witness :
  ∃ out, process_payroll_file
           (mkFile "Regular-01312024.xlsx" (Some Samples.sheet)) = Ok out ∧
    ∀ (r : gmap string cell) (d : date), r ∈ rows out →
      get r "Payroll Date" = CTimestamp d →
      (get r "Cutoff Type" = CStr "First Cutoff" ↔ day d = 15%Z) ∧
      (get r "Cutoff Type" = CStr "Second Cutoff" ↔
       day d = 30%Z ∨ day d = 31%Z) ∧
      (get r "Cutoff Type" = CStr "Other" ↔
       day d ≠ 15%Z ∧ day d ≠ 30%Z ∧ day d ≠ 31%Z).
Proof.
  apply (cutoff_of_valid_date "Regular-01312024.xlsx" Samples.sheet).
  exact sample_sheet_unique.
Defined.

(** ** The identifier pattern *)

Section EmployeeId.

Lemma eat_digits_spec n s rest :
  eat_digits n s = Some rest ↔
  ∃ ds, s = ds +:+ rest ∧ String.length ds = n ∧ all_digits ds = true.
Proof.
  revert s; induction n as [| n IH]; intros s; simpl.
  - split.
    + intros [= ->]. by exists "".
    + intros (ds & -> & Hl & _). by destruct ds.
  - destruct s as [| c s].
    + split; [done |]. intros ([| ? ?] & ? & ? & _); done.
    + destruct (is_digit c) eqn:Hc.
      * rewrite IH. split.
        -- intros (ds & -> & <- & Hd). exists (String c ds).
           simpl. by rewrite Hc.
        -- intros ([| c' ds] & Heq & Hl & Hd); [done |].
           simpl in *. injection Heq as <- ->. injection Hl as <-.
           exists ds. by rewrite Hc in Hd.
      * split; [done |].
        intros ([| c' ds] & Heq & Hl & Hd); [done |].
        simpl in *. injection Heq as <- ->. by rewrite Hc in Hd.
Qed.

Lemma at_dollar_spec rest :
  at_dollar rest = true ↔ rest = "" ∨ rest = line_feed.
Proof.
  destruct rest as [| c [| ? ?]]; simpl.
  - split; [by left | done].
  - unfold line_feed. split.
    + intros ->%Ascii.eqb_eq. by right.
    + intros [? | [= ->]]; [done | apply Ascii.eqb_refl].
  - split; [done | intros [? | ?]; done].
Qed.

(** The pattern accepts three digits, a hyphen and six digits, and the
    same followed by one line feed. *)
Lemma match_employee_id_spec s :
  match_employee_id s = true ↔
  ∃ a b tail, s = a +:+ "-" +:+ b +:+ tail ∧
              String.length a = 3 ∧ all_digits a = true ∧
              String.length b = 6 ∧ all_digits b = true ∧
              (tail = "" ∨ tail = line_feed).
Proof.
  unfold match_employee_id. split.
  - destruct (eat_digits 3 s) as [s1 |] eqn:H1; [| done].
    destruct (eat_char "-" s1) as [s2 |] eqn:H2; [| done].
    destruct (eat_digits 6 s2) as [rest |] eqn:H3; [| done].
    intros Hd%at_dollar_spec.
    apply eat_digits_spec in H1 as (a & -> & ? & ?).
    apply eat_digits_spec in H3 as (b & -> & ? & ?).
    destruct s1 as [| c s1]; [done |]. simpl in H2.
    destruct (Ascii.eqb_spec c "-") as [-> |]; [| done].
    injection H2 as ->. by exists a, b, rest.
  - intros (a & b & tail & -> & Ha & Hda & Hb & Hdb & Ht).
    assert (H1 : eat_digits 3 (a +:+ "-" +:+ b +:+ tail)
                 = Some ("-" +:+ b +:+ tail))
      by (apply eat_digits_spec; by exists a).
    assert (H3 : eat_digits 6 (b +:+ tail) = Some tail)
      by (apply eat_digits_spec; by exists b).
    rewrite H1.
    change (eat_char "-" ("-" +:+ b +:+ tail)) with (Some (b +:+ tail)).
    cbv beta iota. rewrite H3. by apply at_dollar_spec.
Qed.

Lemma three_hyphen_six_spec s :
  three_hyphen_six s = true ↔
  ∃ a b, s = a +:+ "-" +:+ b ∧
         String.length a = 3 ∧ all_digits a = true ∧
         String.length b = 6 ∧ all_digits b = true.
Proof.
  split.
  - destruct s as [| d1 [| d2 [| d3 [| h [| e1 [| e2 [| e3 [| e4 [| e5
                   [| e6 [| x s]]]]]]]]]]]; try discriminate.
    cbn [three_hyphen_six]. rewrite !andb_true_iff.
    intros (((((((((H1 & H2) & H3) & Hh) & G1) & G2) & G3) & G4) & G5) & G6).
    apply Ascii.eqb_eq in Hh as ->.
    exists (String d1 (String d2 (String d3 ""))),
      (String e1 (String e2 (String e3 (String e4 (String e5 (String e6 "")))))).
    cbn [all_digits String.length String.append].
    rewrite H1, H2, H3, G1, G2, G3, G4, G5, G6. done.
  - intros (a & b & -> & Ha & Hda & Hb & Hdb).
    destruct a as [| a1 [| a2 [| a3 [| ? ?]]]]; try discriminate Ha.
    destruct b as [| b1 [| b2 [| b3 [| b4 [| b5 [| b6 [| ? ?]]]]]]];
      try discriminate Hb.
    cbn [all_digits] in Hda, Hdb.
    apply andb_true_iff in Hda as (H1 & Hda).
    apply andb_true_iff in Hda as (H2 & Hda).
    apply andb_true_iff in Hda as (H3 & _).
    apply andb_true_iff in Hdb as (G1 & Hdb).
    apply andb_true_iff in Hdb as (G2 & Hdb).
    apply andb_true_iff in Hdb as (G3 & Hdb).
    apply andb_true_iff in Hdb as (G4 & Hdb).
    apply andb_true_iff in Hdb as (G5 & Hdb).
    apply andb_true_iff in Hdb as (G6 & _).
    unfold String.append. cbn -[is_digit]. rewrite H1, H2, H3, G1, G2, G3, G4, G5, G6. done.
Qed.


Lemma append_associative x y z : x +:+ y +:+ z = (x +:+ y) +:+ z.
Proof.
  induction x as [| c x IH]; [done |].
  change (String c (x +:+ y +:+ z) = String c ((x +:+ y) +:+ z)).
  by rewrite IH.
Qed.




(** The pattern followed by one line feed passes as well: [$] also holds
    just before a final line feed. *)
Lemma pattern_with_line_feed_passes s :
  three_hyphen_six s = true → match_employee_id (s +:+ line_feed) = true.
Proof.
  intros (a & b & -> & Ha & Hda & Hb & Hdb)%three_hyphen_six_spec.
  apply match_employee_id_spec. exists a, b, line_feed.
  repeat split; try done.
  - by rewrite !append_associative.
  - by right.
Qed.

Lemma rows_drop_blank_rows raw :
  rows (drop_blank_rows raw) = after_leading_rows raw.
Proof.
  unfold drop_blank_rows, after_leading_rows.
  by destruct (2 <=? length (rows raw))%nat.
Qed.

Lemma sublist_map {A B} (h : A → B) (l1 l2 : list A) :
  sublist l1 l2 → sublist (map h l1) (map h l2).
Proof.
  induction 1; cbn [map]; [constructor | by apply sublist_skip
                                       | by apply sublist_cons].
Qed.

(** A missing value never passes. *)
Lemma missing_employee_id (r : gmap string cell) :
  r !! "Employee ID*" = None ∨ r !! "Employee ID*" = Some CNull →
  valid_employee_id r = false.
Proof. unfold valid_employee_id, get. by intros [-> | ->]. Qed.





Lemma sublist_filter {A} (P : A → bool) (l : list A) :
  sublist (List.filter P l) l.
Proof.
  induction l as [| x l IH]; [constructor |]. cbn [List.filter].
  destruct (P x); [by apply sublist_skip | by apply sublist_cons].
Qed.

(** Extraction leaves the cells under the original labels as they are. *)
Lemma restrict_others_extracted file_name raw (l : list (gmap string cell)) :
  map (restrict (others raw))
    (map (λ r, restrict (leading ++ others raw)
                 (augment (period_of file_name) r)) l)
  = map (restrict (others raw)) l.
Proof.
  rewrite map_map. apply map_ext. intros r. apply map_eq. intros c.
  destruct (decide (c ∈ others raw)) as [Hc | Hc].
  - rewrite !restrict_lookup_in; try done; [| apply elem_of_app; by right].
    apply elem_of_others in Hc as (_ & ? & ?). by apply augment_other.
  - by rewrite !restrict_lookup_out.
Qed.




End EmployeeId.


Lemma sample_roster_unique : unique_labels Samples.roster.
Proof. apply (bool_decide_unpack _). vm_compute. exact I. Defined.





Lemma Forall2_map_self {A B} (P : B → A → Prop) (g : A → B) (l : list A) :
  (∀ x, x ∈ l → P (g x) x) → Forall2 P (map g l) l.
Proof.
  induction l as [| x l IH]; intros H; simpl; constructor.
  - apply H. by left.
  - apply IH. intros y Hy. apply H. by right.
Qed.

(** C10. Whatever the raw table holds under the labels [Payroll Type],
    [Payroll Date], [Month], [Cutoff Type] and [Payroll Period], every
    extracted row carries the values derived from the file name under the
    first four and nothing under [Payroll Period], which is not a column of
    the result; under every other label of the raw table the row has the
    value of the raw row it comes from. *)
Theorem derived_columns_overwritten (file_name : string) (raw : DataFrame) :
  unique_labels raw →
  ∃ out, process_payroll_file (mkFile file_name (Some raw)) = Ok out ∧
    ("Payroll Period" ∉ columns out) ∧
    Forall2
      (λ r' r : gmap string cell,
         r' !! "Payroll Type" = Some (payroll_type_of file_name) ∧
         r' !! "Payroll Date" = Some (payroll_date_of file_name) ∧
         r' !! "Month" = Some (dt_month_name (payroll_date_of file_name)) ∧
         r' !! "Cutoff Type"
           = Some (CStr (cutoff_of_day (dt_day (payroll_date_of file_name)))) ∧
         r' !! "Payroll Period" = None ∧
         ∀ c, c ∈ columns raw → c ∉ leading → c ≠ "Payroll Period" →
              r' !! c = r !! c)
      (rows out) (kept raw).
Proof.
  intros Hu.
  destruct (extraction_shape_columns file_name raw) as [Hshape Hpp].
  eexists. split; [exact Hshape |]. split; [exact Hpp |].
  cbn [rows]. apply Forall2_map_self. intros r Hr.
  destruct (augment_derived file_name r) as (Ht & Hd & Hc & Hm & Hp).
  assert (Hl : ∀ c, c ∈ leading → c ∈ leading ++ others raw)
    by apply leading_in_output.
  rewrite !restrict_lookup_in
    by (apply Hl; unfold leading; rewrite !elem_of_cons; auto 6).
  repeat (split; [done |]). split.
  - apply restrict_lookup_out. exact Hpp.
  - intros c Hc1 Hc2 Hc3.
    rewrite restrict_lookup_in by (apply elem_of_app; right;
                                   by apply elem_of_others).
    by apply augment_other.
Qed.

Lemma derived_columns_overwritten_witness :
  ∃ out, process_payroll_file
           (mkFile "Regular-01152024.xlsx" (Some Samples.sheet)) = Ok out ∧
    ("Payroll Period" ∉ columns out) ∧
    Forall2
      (λ r' r : gmap string cell,
         r' !! "Payroll Type" = Some (payroll_type_of "Regular-01152024.xlsx") ∧
         r' !! "Payroll Date" = Some (payroll_date_of "Regular-01152024.xlsx") ∧
         r' !! "Month"
           = Some (dt_month_name (payroll_date_of "Regular-01152024.xlsx")) ∧
         r' !! "Cutoff Type"
           = Some (CStr (cutoff_of_day
                           (dt_day (payroll_date_of "Regular-01152024.xlsx")))) ∧
         r' !! "Payroll Period" = None ∧
         ∀ c, c ∈ columns Samples.sheet → c ∉ leading →
              c ≠ "Payroll Period" → r' !! c = r !! c)
      (rows out) (kept Samples.sheet).
Proof.
  apply (derived_columns_overwritten "Regular-01152024.xlsx" Samples.sheet).
  exact sample_sheet_unique.
Defined.

(** ** Consolidation *)

Section Consolidation.

Lemma union_reserved (b : string) (seen : gset string) :
  b ∈ seen → {[b]} ∪ seen = seen.
Proof.
  intros Hb. apply set_eq. intros x.
  rewrite elem_of_union, elem_of_singleton.
  split; [intros [-> | ?]; done | by right].
Qed.

Lemma visit_cases a uf :
  (accepted uf = false ∧ visit a uf = a) ∨
  (accepted uf = true ∧ base_of uf ∈ seen_bases a ∧
   visit a uf = mkAcc (dfs a) (processed a) (skipped a ++ [name uf])
                      (seen_bases a) (warned a)) ∨
  (accepted uf = true ∧ (base_of uf ∉ seen_bases a) ∧
   ∃ df, extraction uf = Ok df ∧
         visit a uf = mkAcc (dfs a ++ [df]) (processed a ++ [name uf])
                        (skipped a) ({[base_of uf]} ∪ seen_bases a)
                        (warned a)) ∨
  (accepted uf = true ∧ (base_of uf ∉ seen_bases a) ∧
   ∃ e, extraction uf = Raise e ∧
        visit a uf = mkAcc (dfs a) (processed a) (skipped a)
                       ({[base_of uf]} ∪ seen_bases a)
                       (warned a ++ [name uf])).
Proof.
  unfold visit. fold (accepted uf) (base_of uf) (extraction uf).
  destruct (accepted uf); cbn [negb].
  - right. destruct (decide (base_of uf ∈ seen_bases a)) as [Hin | Hin].
    + left. done.
    + right. destruct (extraction uf) as [df | e] eqn:He.
      * left. repeat split; try done. by exists df.
      * right. repeat split; try done. by exists e.
  - left. by destruct a.
Qed.

(** The accumulators after the loop, in terms of the files that were
    attempted and of those that were duplicates. *)
Lemma foldl_visit_spec l a :
  dfs (foldl visit a l)
  = dfs a ++ omap extracted (attempted (seen_bases a) l) ∧
  processed (foldl visit a l)
  = processed a ++ omap processed_name (attempted (seen_bases a) l) ∧
  skipped (foldl visit a l)
  = skipped a ++ map name (duplicates (seen_bases a) l) ∧
  seen_bases (foldl visit a l) = seen_after (seen_bases a) l ∧
  warned (foldl visit a l)
  = warned a ++ omap failed_name (attempted (seen_bases a) l).
Proof.
  revert a; induction l as [| uf l IH]; intros a.
  { cbn. by rewrite !app_nil_r. }
  cbn [foldl attempted duplicates seen_after].
  destruct (IH (visit a uf)) as (Hd & Hp & Hs & Hb & Hw).
  rewrite Hd, Hp, Hs, Hb, Hw. clear IH Hd Hp Hs Hb Hw.
  destruct (visit_cases a uf)
    as [[Ha ->] | [(Ha & Hin & ->) | [(Ha & Hin & df & He & ->)
                                     | (Ha & Hin & e & He & ->)]]];
    rewrite Ha; cbn [dfs processed skipped seen_bases warned].
  - done.
  - rewrite !decide_True by done.
    rewrite (union_reserved _ _ Hin).
    cbn [map]. by rewrite <- !app_assoc.
  - rewrite !decide_False by done. cbn [omap list_omap].
    unfold extracted at 2, processed_name at 2, failed_name at 2.
    rewrite He. by rewrite <- !app_assoc.
  - rewrite !decide_False by done. cbn [omap list_omap].
    unfold extracted at 2, processed_name at 2, failed_name at 2.
    rewrite He. by rewrite <- !app_assoc.
Qed.

Lemma NoDup_union_step (acc cols : list string) :
  NoDup acc → NoDup cols → NoDup (acc ++ filter (λ c, c ∉ acc) cols).
Proof.
  intros Ha Hc. apply NoDup_app. repeat split; [done | | by apply NoDup_filter].
  intros x Hx Hx'. by apply list_elem_of_filter in Hx' as [? _].
Qed.

Lemma NoDup_union_columns (tables : list DataFrame) :
  Forall unique_labels tables → NoDup (union_columns tables).
Proof.
  unfold union_columns. generalize (NoDup_nil_2 (A := string)).
  generalize (@nil string) as acc.
  induction tables as [| df tables IH]; intros acc Hacc Hall; [done |].
  inversion Hall as [| ? ? Hdf Hrest]; subst. cbn [foldl].
  apply IH; [| done]. by apply NoDup_union_step.
Qed.

(** Concatenating tables with distinct labels succeeds and gives a table
    with distinct labels. *)
Lemma concat_unique (tables : list DataFrame) :
  tables ≠ [] → Forall unique_labels tables →
  ∃ merged, concat tables = Ok merged ∧ unique_labels merged.
Proof.
  intros Hne Hall. destruct tables as [| df0 tables]; [done |].
  unfold concat. case_decide.
  - eexists. split; [done |]. by inversion Hall.
  - rewrite decide_True by done. eexists. split; [done |].
    by apply NoDup_union_columns.
Qed.

Lemma reorder_like_reference_returns (final_df : DataFrame)
    (ref_cols : list string) :
  unique_labels final_df →
  ∃ out, reorder_like_reference final_df ref_cols = Ok out.
Proof.
  intros Hu. unfold reorder_like_reference, reindex.
  case_decide; [by eexists |]. rewrite decide_True by exact Hu. by eexists.
Qed.

Lemma extracted_unique uf df :
  readable_unique uf → extracted uf = Some df → unique_labels df.
Proof.
  unfold extracted, extraction. intros Hu.
  destruct (content uf) as [raw |] eqn:Hc.
  - destruct (process_payroll_file _) as [df' | e] eqn:Hp; [| done].
    intros [= <-]. eapply process_payroll_file_unique; [| exact Hp].
    by apply Hu.
  - unfold process_payroll_file, read_excel. cbn [content]. done.
Qed.

Lemma attempted_sublist seen l uf : uf ∈ attempted seen l → uf ∈ l.
Proof.
  revert seen; induction l as [| x l IH]; intros seen; cbn [attempted].
  - done.
  - destruct (accepted x); [case_decide |].
    + intros ?%IH. by right.
    + intros [-> | ?%IH]%elem_of_cons; [by left | by right].
    + intros ?%IH. by right.
Qed.

Lemma dfs_unique uploads :
  Forall readable_unique uploads →
  Forall unique_labels (omap extracted (attempted ∅ uploads)).
Proof.
  intros Hall. apply Forall_forall. intros df Hdf.
  apply list_elem_of_omap in Hdf as (uf & Huf & Hex).
  eapply extracted_unique; [| exact Hex].
  rewrite Forall_forall in Hall. apply Hall.
  by eapply attempted_sublist.
Qed.

(** The tables the loop collects, and the names it records. *)
Lemma visit_all_spec uploads :
  dfs (visit_all uploads) = omap extracted (attempted ∅ uploads) ∧
  processed (visit_all uploads)
  = omap processed_name (attempted ∅ uploads) ∧
  skipped (visit_all uploads) = map name (duplicates ∅ uploads).
Proof.
  destruct (foldl_visit_spec uploads acc0) as (Hd & Hp & Hs & _).
  by repeat split.
Qed.

(** With readable workbooks of distinct labels, [finish] returns. *)
Lemma finish_returns a ref_cols :
  Forall unique_labels (dfs a) →
  ∃ t, finish a ref_cols = Ok (t, processed a, skipped a) ∧
       (dfs a = [] → t = empty_frame) ∧
       (dfs a ≠ [] →
        ∃ merged, concat (dfs a) = Ok merged ∧
                  reorder_like_reference merged ref_cols = Ok t).
Proof.
  intros Hall. unfold finish. destruct (dfs a) as [| df0 tables] eqn:Hd.
  - exists empty_frame. by repeat split.
  - destruct (concat_unique (df0 :: tables)) as (merged & Hm & Hu);
      [done | done |].
    destruct (reorder_like_reference_returns merged ref_cols Hu) as (t & Ht).
    exists t. rewrite Hm. cbn [mbind result_bind]. rewrite Ht.
    repeat split; [done |]. intros _. by exists merged.
Qed.

Lemma seen_after_app seen l1 l2 :
  seen_after seen (l1 ++ l2) = seen_after (seen_after seen l1) l2.
Proof.
  revert seen; induction l1 as [| x l1 IH]; intros seen; [done |].
  cbn [app seen_after]. by destruct (accepted x).
Qed.

Lemma attempted_app seen l1 l2 :
  attempted seen (l1 ++ l2)
  = attempted seen l1 ++ attempted (seen_after seen l1) l2.
Proof.
  revert seen; induction l1 as [| x l1 IH]; intros seen; [done |].
  cbn [app attempted seen_after].
  destruct (accepted x); [| done]. case_decide as Hin.
  - by rewrite (union_reserved _ _ Hin).
  - by rewrite IH.
Qed.

Lemma duplicates_app seen l1 l2 :
  duplicates seen (l1 ++ l2)
  = duplicates seen l1 ++ duplicates (seen_after seen l1) l2.
Proof.
  revert seen; induction l1 as [| x l1 IH]; intros seen; [done |].
  cbn [app duplicates seen_after].
  destruct (accepted x); [| done]. case_decide as Hin.
  - by rewrite (union_reserved _ _ Hin), IH.
  - done.
Qed.

Lemma elem_of_seen_after seen l b :
  b ∈ seen_after seen l ↔
  b ∈ seen ∨ ∃ g, g ∈ l ∧ accepted g = true ∧ base_of g = b.
Proof.
  revert seen; induction l as [| x l IH]; intros seen; cbn [seen_after].
  - split; [by left |]. intros [? | (g & Hg & _)]; [done |].
    by apply elem_of_nil in Hg.
  - destruct (accepted x) eqn:Hx; rewrite IH.
    + rewrite elem_of_union, elem_of_singleton. split.
      * intros [[-> | ?] | (g & Hg & ? & ?)].
        -- right. exists x. split; [by left | done].
        -- by left.
        -- right. exists g. split; [by right | done].
      * intros [? | (g & Hg & Hacc & Hb)]; [by left; right |].
        apply elem_of_cons in Hg as [-> | Hg]; [by left; left |].
        right. by exists g.
    + split.
      * intros [? | (g & Hg & ? & ?)]; [by left |].
        right. exists g. split; [by right | done].
      * intros [? | (g & Hg & Hacc & Hb)]; [by left |].
        apply elem_of_cons in Hg as [-> | Hg]; [congruence |].
        right. by exists g.
Qed.

(** [finish] looks at the collected tables and passes the two lists on. *)
Lemma finish_same_tables a b ref_cols t :
  dfs a = dfs b →
  finish a ref_cols = Ok (t, processed a, skipped a) →
  finish b ref_cols = Ok (t, processed b, skipped b).
Proof.
  unfold finish. intros <-. destruct (dfs a); [by intros [= <-] |].
  destruct (concat _) as [merged | e]; cbn [mbind result_bind]; [| done].
  destruct (reorder_like_reference _ _) as [out | e]; [| done].
  by intros [= <-].
Qed.

(** A later file with a base name already met changes nothing but the
    list of skipped names. *)
Lemma later_duplicate_spec before f2 post :
  accepted f2 = true →
  base_of f2 ∈ seen_after ∅ before →
  attempted ∅ (before ++ f2 :: post) = attempted ∅ (before ++ post) ∧
  duplicates ∅ (before ++ f2 :: post)
  = duplicates ∅ before ++ f2 :: duplicates (seen_after ∅ before) post ∧
  duplicates ∅ (before ++ post)
  = duplicates ∅ before ++ duplicates (seen_after ∅ before) post.
Proof.
  intros Hacc Hin. rewrite !attempted_app, !duplicates_app.
  cbn [attempted duplicates]. rewrite Hacc, !decide_True by done. done.
Qed.

(** The first accepted file with its base name is attempted. *)
Lemma first_is_attempted pre f1 rest :
  accepted f1 = true →
  (∀ g, g ∈ pre → accepted g = true → base_of g ≠ base_of f1) →
  f1 ∈ attempted ∅ (pre ++ f1 :: rest).
Proof.
  intros Hacc Hfirst. rewrite attempted_app. apply elem_of_app. right.
  cbn [attempted]. rewrite Hacc, decide_False; [by left |].
  rewrite elem_of_seen_after. intros [Hin | (g & Hg & Hga & Hgb)].
  - by apply elem_of_empty in Hin.
  - by apply (Hfirst g).
Qed.

(** [consolidate] returns whenever the readable workbooks have distinct
    labels. *)
Lemma consolidate_returns uploads ref_cols :
  Forall readable_unique uploads →
  ∃ t, consolidate uploads ref_cols
       = Ok (t, omap processed_name (attempted ∅ uploads),
             map name (duplicates ∅ uploads)) ∧
       (omap extracted (attempted ∅ uploads) = [] → t = empty_frame) ∧
       (omap extracted (attempted ∅ uploads) ≠ [] →
        ∃ merged,
          concat (omap extracted (attempted ∅ uploads)) = Ok merged ∧
          reorder_like_reference merged ref_cols = Ok t).
Proof.
  intros Hall. destruct (visit_all_spec uploads) as (Hd & Hp & Hs).
  destruct (finish_returns (visit_all uploads) ref_cols) as (t & Hf & H0 & H1).
  { rewrite Hd. by apply dfs_unique. }
  exists t. unfold consolidate. rewrite Hf, Hp, Hs. by rewrite Hd in H0, H1.
Qed.

(** A file whose extraction raises leaves no table and no processed
    name, wherever it stands in the list. *)
Lemma failing_file_contributes_nothing pre uf post e :
  extraction uf = Raise e →
  omap extracted (attempted ∅ (pre ++ uf :: post))
  = omap extracted (attempted ∅ pre)
    ++ omap extracted (attempted (seen_after ∅ (pre ++ [uf])) post) ∧
  omap processed_name (attempted ∅ (pre ++ uf :: post))
  = omap processed_name (attempted ∅ pre)
    ++ omap processed_name (attempted (seen_after ∅ (pre ++ [uf])) post).
Proof.
  intros He. rewrite attempted_app, seen_after_app, !omap_app.
  cbn [attempted seen_after]. destruct (accepted uf); [| done].
  case_decide as Hin.
  - by rewrite (union_reserved _ _ Hin).
  - cbn [omap list_omap]. unfold extracted at 2, processed_name at 2.
    by rewrite He.
Qed.

Lemma readable_unique_some file_name raw :
  unique_labels raw → readable_unique (mkFile file_name (Some raw)).
Proof. intros Hu raw' [= <-]. exact Hu. Qed.

Lemma readable_unique_none file_name :
  readable_unique (mkFile file_name None).
Proof. intros raw' [=]. Qed.

Lemma derive_ref_columns_propagates ref e :
  process_payroll_file ref = Raise e → derive_ref_columns ref = Raise e.
Proof. intros He. unfold derive_ref_columns. by rewrite He. Qed.

Lemma run_stops_on_reference_failure ref e payroll_files :
  process_payroll_file ref = Raise e → payroll_files ≠ [] →
  run (Some ref) payroll_files true = ReferenceFailed e.
Proof.
  intros He Hne. unfold run.
  destruct payroll_files as [| f fs]; [done |]. cbn [length Nat.eqb negb].
  by rewrite (derive_ref_columns_propagates _ _ He).
Qed.

End Consolidation.

(** C6. When the upload list holds two accepted files with the same base
    name, the name of the later one is recorded under [skipped] and the
    consolidated table and the processed names are what they are without
    that file; when the earlier one is the first with that base name and its
    extraction succeeds, it is the one processed. *)
Theorem duplicate_base_is_skipped
    (pre mid post : list file_like) (f1 f2 : file_like)
    (ref_cols : list string) :
  Forall readable_unique (pre ++ f1 :: mid ++ f2 :: post) →
  accepted f1 = true → accepted f2 = true → base_of f1 = base_of f2 →
  ∃ t p s1 s2,
    consolidate (pre ++ f1 :: mid ++ f2 :: post) ref_cols
    = Ok (t, p, s1 ++ name f2 :: s2) ∧
    consolidate (pre ++ f1 :: mid ++ post) ref_cols = Ok (t, p, s1 ++ s2) ∧
    ((∀ g, g ∈ pre → accepted g = true → base_of g ≠ base_of f1) →
     ∀ df, extraction f1 = Ok df →
           name f1 ∈ p ∧
           df ∈ dfs (visit_all (pre ++ f1 :: mid ++ f2 :: post))).
Proof.
  intros Hall Ha1 Ha2 Hbase.
  set (before := pre ++ f1 :: mid).
  assert (HU : pre ++ f1 :: mid ++ f2 :: post = before ++ f2 :: post)
    by (unfold before; by rewrite <- app_assoc).
  assert (HU' : pre ++ f1 :: mid ++ post = before ++ post)
    by (unfold before; by rewrite <- app_assoc).
  assert (Hin : base_of f2 ∈ seen_after ∅ before).
  { apply elem_of_seen_after. right. exists f1. repeat split; [| done..].
    unfold before. apply elem_of_app. right. by left. }
  destruct (later_duplicate_spec before f2 post Ha2 Hin) as (Hatt & Hd & Hd').
  destruct (visit_all_spec (before ++ f2 :: post)) as (Hdfs & Hp & Hs).
  destruct (visit_all_spec (before ++ post)) as (Hdfs' & Hp' & Hs').
  destruct (finish_returns (visit_all (before ++ f2 :: post)) ref_cols)
    as (t & Hf & _).
  { rewrite Hdfs. apply dfs_unique. by rewrite <- HU. }
  assert (Hf' := finish_same_tables _ (visit_all (before ++ post)) _ _
                   ltac:(by rewrite Hdfs, Hdfs', Hatt) Hf).
  exists t, (omap processed_name (attempted ∅ (before ++ post))),
    (map name (duplicates ∅ before)),
    (map name (duplicates (seen_after ∅ before) post)).
  rewrite HU, HU'. unfold consolidate. rewrite Hf, Hf'.
  rewrite Hp, Hp', Hs, Hs', Hatt, Hd, Hd', !map_app. cbn [map].
  split; [done |]. split; [done |]. intros Hfirst df Hdf.
  assert (Hatt1 : f1 ∈ attempted ∅ (before ++ f2 :: post))
    by (rewrite <- HU; by apply first_is_attempted).
  split.
  - apply list_elem_of_omap. exists f1. split; [by rewrite <- Hatt |].
    unfold processed_name. by rewrite Hdf.
  - rewrite Hdfs. apply list_elem_of_omap. exists f1. split; [done |].
    unfold extracted. by rewrite Hdf.
Qed.

Lemma duplicate_base_is_skipped_witness :
  ∃ t p s1 s2,
    consolidate ([] ++ mkFile "Regular-01152024.xlsx" (Some Samples.sheet)
                    :: [] ++ mkFile "Regular-01152024.XLSX" (Some Samples.plain)
                    :: []) ["Name"]
    = Ok (t, p, s1 ++ "Regular-01152024.XLSX" :: s2) ∧
    consolidate ([] ++ mkFile "Regular-01152024.xlsx" (Some Samples.sheet)
                    :: [] ++ []) ["Name"]
    = Ok (t, p, s1 ++ s2) ∧
    ((∀ g, g ∈ [] → accepted g = true →
           base_of g
           ≠ base_of (mkFile "Regular-01152024.xlsx" (Some Samples.sheet))) →
     ∀ df, extraction (mkFile "Regular-01152024.xlsx" (Some Samples.sheet))
           = Ok df →
           "Regular-01152024.xlsx" ∈ p ∧
           df ∈ dfs (visit_all
                       ([] ++ mkFile "Regular-01152024.xlsx" (Some Samples.sheet)
                           :: [] ++ mkFile "Regular-01152024.XLSX"
                                      (Some Samples.plain) :: []))).
Proof.
  apply (duplicate_base_is_skipped [] [] []
           (mkFile "Regular-01152024.xlsx" (Some Samples.sheet))
           (mkFile "Regular-01152024.XLSX" (Some Samples.plain)) ["Name"]).
  - constructor; [| constructor; [| constructor]].
    + apply readable_unique_some. exact sample_sheet_unique.
    + apply readable_unique_some. exact sample_plain_unique.
  - vm_compute. reflexivity.
  - vm_compute. reflexivity.
  - vm_compute. reflexivity.
Defined.

(** C7. A payroll file whose extraction raises never makes [consolidate]
    raise: [consolidate] returns, the processed names are those of the
    attempted files whose extraction succeeded, the table is built from
    their tables alone, and the files before and after a failing one are
    handled as usual.  A failure on the reference file propagates out of
    [derive_ref_columns], and the run stops without consolidating. *)
Theorem extraction_failure_is_local :
  (∀ uploads ref_cols,
     Forall readable_unique uploads →
     ∃ t, consolidate uploads ref_cols
          = Ok (t, omap processed_name (attempted ∅ uploads),
                map name (duplicates ∅ uploads)) ∧
          warned (visit_all uploads) = omap failed_name (attempted ∅ uploads) ∧
          (omap extracted (attempted ∅ uploads) = [] → t = empty_frame) ∧
          (omap extracted (attempted ∅ uploads) ≠ [] →
           ∃ merged,
             concat (omap extracted (attempted ∅ uploads)) = Ok merged ∧
             reorder_like_reference merged ref_cols = Ok t)) ∧
  (∀ pre uf post e,
     extraction uf = Raise e →
     omap extracted (attempted ∅ (pre ++ uf :: post))
     = omap extracted (attempted ∅ pre)
       ++ omap extracted (attempted (seen_after ∅ (pre ++ [uf])) post) ∧
     omap processed_name (attempted ∅ (pre ++ uf :: post))
     = omap processed_name (attempted ∅ pre)
       ++ omap processed_name (attempted (seen_after ∅ (pre ++ [uf])) post)) ∧
  (∀ ref e,
     process_payroll_file ref = Raise e →
     derive_ref_columns ref = Raise e ∧
     ∀ payroll_files, payroll_files ≠ [] →
       run (Some ref) payroll_files true = ReferenceFailed e).
Proof.
  split; [| split].
  - intros uploads ref_cols Hall.
    destruct (consolidate_returns uploads ref_cols Hall) as (t & Ht & H0 & H1).
    exists t. repeat split; try done.
    by destruct (foldl_visit_spec uploads acc0) as (_ & _ & _ & _ & Hw).
  - apply failing_file_contributes_nothing.
  - intros ref e He. split; [by apply derive_ref_columns_propagates |].
    intros payroll_files Hne. by apply run_stops_on_reference_failure.
Qed.

(** C9. The base name is reserved before extraction is attempted: when the
    first file with a base name fails extraction, that base name is in
    [seen_bases] all the same, a later file with the same base name goes to
    [skipped] and is not extracted, and the tables and processed names of
    the run are those gathered from the other files. *)
Theorem failed_first_file_reserves_base
    (pre mid post : list file_like) (f1 f2 : file_like)
    (ref_cols : list string) (e : exn) :
  Forall readable_unique (pre ++ f1 :: mid ++ f2 :: post) →
  accepted f1 = true → accepted f2 = true → base_of f1 = base_of f2 →
  (∀ g, g ∈ pre → accepted g = true → base_of g ≠ base_of f1) →
  extraction f1 = Raise e →
  let a0 := visit_all pre in
  let a1 := visit a0 f1 in
  let a2 := foldl visit a1 mid in
  let a3 := visit a2 f2 in
  (base_of f1 ∈ seen_bases a1) ∧
  dfs a1 = dfs a0 ∧ processed a1 = processed a0 ∧
  dfs a3 = dfs a2 ∧ processed a3 = processed a2 ∧
  skipped a3 = skipped a2 ++ [name f2] ∧
  ∃ t,
    consolidate (pre ++ f1 :: mid ++ f2 :: post) ref_cols
    = Ok (t,
          processed a0
          ++ omap processed_name (attempted (seen_bases a1) mid)
          ++ omap processed_name (attempted (seen_bases a3) post),
          skipped a2 ++ name f2
          :: map name (duplicates (seen_bases a3) post)) ∧
    dfs (visit_all (pre ++ f1 :: mid ++ f2 :: post))
    = dfs a0 ++ omap extracted (attempted (seen_bases a1) mid)
      ++ omap extracted (attempted (seen_bases a3) post).
Proof.
  intros Hall Ha1 Ha2 Hbase Hfirst He a0 a1 a2 a3.
  assert (Hnew : base_of f1 ∉ seen_bases a0).
  { unfold a0, visit_all.
    destruct (foldl_visit_spec pre acc0) as (_ & _ & _ & -> & _).
    rewrite elem_of_seen_after. intros [Hin | (g & Hg & Hga & Hgb)].
    - by apply elem_of_empty in Hin.
    - by apply (Hfirst g). }
  assert (H1 : a1 = mkAcc (dfs a0) (processed a0) (skipped a0)
                     ({[base_of f1]} ∪ seen_bases a0)
                     (warned a0 ++ [name f1])).
  { unfold a1.
    destruct (visit_cases a0 f1)
      as [[Ha _] | [(_ & Hin & _) | [(_ & _ & df & Hdf & _)
                                    | (_ & _ & e' & _ & ->)]]];
      [congruence | done | congruence | done]. }
  destruct (foldl_visit_spec mid a1) as (Hd2 & Hp2 & Hs2 & Hb2 & _).
  fold a2 in Hd2, Hp2, Hs2, Hb2.
  assert (Hres : base_of f2 ∈ seen_bases a2).
  { rewrite Hb2. apply elem_of_seen_after. left.
    rewrite H1. cbn [seen_bases]. rewrite <- Hbase.
    apply elem_of_union. left. by apply elem_of_singleton. }
  assert (H3 : a3 = mkAcc (dfs a2) (processed a2) (skipped a2 ++ [name f2])
                     (seen_bases a2) (warned a2)).
  { unfold a3.
    destruct (visit_cases a2 f2)
      as [[Ha _] | [(_ & _ & ->) | [(_ & Hout & _) | (_ & Hout & _)]]];
      [congruence | done | done | done]. }
  assert (Hall' : visit_all (pre ++ f1 :: mid ++ f2 :: post)
                  = foldl visit a3 post).
  { unfold visit_all. rewrite foldl_app. cbn [foldl]. by rewrite foldl_app. }
  destruct (foldl_visit_spec post a3) as (Hd4 & Hp4 & Hs4 & _).
  rewrite <- Hall' in Hd4, Hp4, Hs4.
  assert (Hd3 : dfs a3 = dfs a0
                         ++ omap extracted (attempted (seen_bases a1) mid)).
  { rewrite H3. cbn [dfs]. rewrite Hd2. by rewrite H1 at 1. }
  assert (Hp3 : processed a3
                = processed a0
                  ++ omap processed_name (attempted (seen_bases a1) mid)).
  { rewrite H3. cbn [processed]. rewrite Hp2. by rewrite H1 at 1. }
  split; [rewrite H1; cbn [seen_bases]; apply elem_of_union; left;
          by apply elem_of_singleton |].
  split; [by rewrite H1 |]. split; [by rewrite H1 |].
  split; [by rewrite H3 |]. split; [by rewrite H3 |].
  split; [by rewrite H3 |].
  destruct (finish_returns (visit_all (pre ++ f1 :: mid ++ f2 :: post))
              ref_cols) as (t & Hf & _).
  { destruct (visit_all_spec (pre ++ f1 :: mid ++ f2 :: post)) as (-> & _).
    by apply dfs_unique. }
  exists t. split.
  - unfold consolidate. rewrite Hf, Hp4, Hs4, Hp3. f_equal. f_equal.
    + by rewrite <- app_assoc.
    + rewrite H3 at 1. cbn [skipped]. by rewrite <- app_assoc.
  - rewrite Hd4, Hd3. by rewrite <- app_assoc.
Qed.

Lemma failed_first_file_reserves_base_witness :
  let f1 := mkFile "Regular-01152024.xlsx" None in
  let f2 := mkFile "Regular-01152024.XLSX" (Some Samples.sheet) in
  let a0 := visit_all [] in
  let a1 := visit a0 f1 in
  let a2 := foldl visit a1 [] in
  let a3 := visit a2 f2 in
  (base_of f1 ∈ seen_bases a1) ∧
  dfs a1 = dfs a0 ∧ processed a1 = processed a0 ∧
  dfs a3 = dfs a2 ∧ processed a3 = processed a2 ∧
  skipped a3 = skipped a2 ++ [name f2] ∧
  ∃ t,
    consolidate ([] ++ f1 :: [] ++ f2 :: []) ["Name"]
    = Ok (t,
          processed a0
          ++ omap processed_name (attempted (seen_bases a1) [])
          ++ omap processed_name (attempted (seen_bases a3) []),
          skipped a2 ++ name f2
          :: map name (duplicates (seen_bases a3) [])) ∧
    dfs (visit_all ([] ++ f1 :: [] ++ f2 :: []))
    = dfs a0 ++ omap extracted (attempted (seen_bases a1) [])
      ++ omap extracted (attempted (seen_bases a3) []).
Proof.
  apply (failed_first_file_reserves_base [] [] []
           (mkFile "Regular-01152024.xlsx" None)
           (mkFile "Regular-01152024.XLSX" (Some Samples.sheet))
           ["Name"] ParseError).
  - constructor; [| constructor; [| constructor]].
    + apply readable_unique_none.
    + apply readable_unique_some. exact sample_sheet_unique.
  - vm_compute. reflexivity.
  - vm_compute. reflexivity.
  - vm_compute. reflexivity.
  - intros g Hg. by apply elem_of_nil in Hg.
  - vm_compute. reflexivity.
Defined.

(** * Further properties of the helpers *)

(** ** The Reconciler on well-formed inputs *)

Section ReconcilerOrder.

Lemma filter_all (P : string → Prop) `{!∀ x, Decision (P x)} (l : list string) :
  (∀ x, x ∈ l → P x) → filter P l = l.
Proof.
  induction l as [| x l IH]; intros Hall; [done |].
  rewrite filter_cons_True by (apply Hall; by left).
  f_equal. apply IH. intros y Hy. apply Hall. by right.
Qed.

Lemma filter_none (P : string → Prop) `{!∀ x, Decision (P x)} (l : list string) :
  (∀ x, x ∈ l → ¬ P x) → filter P l = [].
Proof.
  induction l as [| x l IH]; intros Hnone; [done |].
  rewrite filter_cons_False by (apply Hnone; by left).
  apply IH. intros y Hy. apply Hnone. by right.
Qed.

(** [place_extra] puts the column somewhere in the order and moves
    nothing else. *)
Lemma place_extra_split order col :
  ∃ front back, order = front ++ back ∧
                place_extra order col = front ++ col :: back.
Proof.
  unfold place_extra. destruct (last _) as [i |].
  - exists (take (i + 1) order), (drop (i + 1) order).
    by rewrite take_drop.
  - exists order, []. by rewrite app_nil_r.
Qed.

Lemma elem_of_place_extra order col c :
  c ∈ place_extra order col ↔ c = col ∨ c ∈ order.
Proof.
  destruct (place_extra_split order col) as (front & back & -> & ->).
  rewrite !elem_of_app, elem_of_cons. tauto.
Qed.

Lemma NoDup_place_extra order col :
  NoDup order → col ∉ order → NoDup (place_extra order col).
Proof.
  destruct (place_extra_split order col) as (front & back & -> & ->).
  intros Hnd Hcol. apply NoDup_app in Hnd as (Hf & Hdisj & Hb).
  rewrite elem_of_app in Hcol.
  apply NoDup_app. repeat split; [done | | ].
  - intros x Hx [-> | Hx']%elem_of_cons; [tauto | by apply (Hdisj x)].
  - apply NoDup_cons. split; [tauto | done].
Qed.

Lemma filter_place_extra (P : string → Prop) `{!∀ x, Decision (P x)}
    order col :
  ¬ P col → filter P (place_extra order col) = filter P order.
Proof.
  intros Hcol.
  destruct (place_extra_split order col) as (front & back & -> & ->).
  by rewrite !filter_app, filter_cons_False.
Qed.

Lemma foldl_place_extra_spec (xs : list string) : ∀ order,
  NoDup order → NoDup xs → (∀ x, x ∈ xs → x ∉ order) →
  NoDup (foldl place_extra order xs) ∧
  (∀ c, c ∈ foldl place_extra order xs ↔ c ∈ order ∨ c ∈ xs) ∧
  ∀ (P : string → Prop) `{!∀ x, Decision (P x)},
    (∀ x, x ∈ xs → ¬ P x) →
    filter P (foldl place_extra order xs) = filter P order.
Proof.
  induction xs as [| x xs IH]; intros order Hord Hxs Hdisj; cbn [foldl].
  - split; [done |]. split; [| done].
    intros c. rewrite elem_of_nil. tauto.
  - apply NoDup_cons in Hxs as [Hx Hxs].
    destruct (IH (place_extra order x)) as (Hnd & Hel & Hfil).
    + apply NoDup_place_extra; [done |]. apply Hdisj. by left.
    + done.
    + intros y Hy. rewrite elem_of_place_extra. intros [-> | Hin]; [done |].
      by apply (Hdisj y); [right |].
    + split; [done |]. split.
      * intros c. rewrite Hel, elem_of_place_extra, elem_of_cons. tauto.
      * intros P HP Hno. rewrite Hfil by (intros y Hy; apply Hno; by right).
        apply filter_place_extra. apply Hno. by left.
Qed.

Lemma foldl_keep_known_NoDup all_cols (l : list string) : ∀ out seen,
  (∀ c, c ∈ seen ↔ c ∈ out) → NoDup l → (∀ c, c ∈ l → c ∉ out) →
  ∃ seen',
    foldl (keep_known all_cols) (out, seen) l
    = (out ++ filter (λ c, c ∈ all_cols) l, seen') ∧
    ∀ c, c ∈ seen' ↔ c ∈ out ++ filter (λ c, c ∈ all_cols) l.
Proof.
  induction l as [| x l IH]; intros out seen Hseen Hl Hdisj; cbn [foldl].
  - exists seen. by rewrite filter_nil, app_nil_r.
  - apply NoDup_cons in Hl as [Hx Hl].
    assert (Hxs : x ∉ seen) by (rewrite Hseen; apply Hdisj; by left).
    unfold keep_known at 2.
    destruct (decide (x ∈ all_cols)) as [Hin | Hout].
    + rewrite decide_True by done.
      destruct (IH (out ++ [x]) ({[x]} ∪ seen)) as (seen' & -> & Hs').
      * intros c. rewrite elem_of_union, elem_of_singleton, elem_of_app,
          list_elem_of_singleton, Hseen. tauto.
      * done.
      * intros c Hc. rewrite elem_of_app, list_elem_of_singleton.
        intros [Hc' | ->]; [| done]. by apply (Hdisj c); [right |].
      * exists seen'. rewrite filter_cons_True by done.
        rewrite <- app_assoc in *. done.
    + rewrite decide_False by tauto.
      destruct (IH out seen) as (seen' & -> & Hs'); [done | done | |].
      * intros c Hc. apply Hdisj. by right.
      * exists seen'. by rewrite filter_cons_False.
Qed.

Lemma foldl_add_missing_idle (l : list string) out (seen : gset string) :
  (∀ c, c ∈ l → c ∈ seen) → foldl add_missing (out, seen) l = (out, seen).
Proof.
  induction l as [| x l IH]; intros H; cbn [foldl]; [done |].
  unfold add_missing at 2. rewrite decide_False.
  - apply IH. intros c Hc. apply H. by right.
  - intros Hx. apply Hx, H. by left.
Qed.

(** With distinct labels on both sides the closing loops only remove the
    canonical names that the table lacks. *)
Lemma final_order_filter all_cols ref_cols :
  NoDup all_cols → NoDup ref_cols →
  final_order all_cols ref_cols
  = filter (λ c, c ∈ all_cols) (insert_extras all_cols ref_cols).
Proof.
  intros Hall Href. unfold final_order.
  destruct (foldl_place_extra_spec (extras all_cols ref_cols) ref_cols)
    as (Hnd & Hel & _).
  { done. }
  { unfold extras. by apply NoDup_filter. }
  { intros x Hx. unfold extras in Hx. by apply list_elem_of_filter in Hx as [? _]. }
  fold (insert_extras all_cols ref_cols) in Hnd, Hel.
  destruct (foldl_keep_known_NoDup all_cols (insert_extras all_cols ref_cols)
              [] ∅) as (seen' & -> & Hs');
    [intros c; split; [by intros ?%elem_of_empty | by intros ?%elem_of_nil]
    | done | |].
  { intros c _ Hc. by apply elem_of_nil in Hc. }
  rewrite foldl_add_missing_idle; [done |].
  intros c Hc. apply Hs'. rewrite app_nil_l. apply list_elem_of_filter.
  split; [done |]. apply Hel.
  destruct (decide (c ∈ ref_cols)); [by left |].
  right. unfold extras. by apply list_elem_of_filter.
Qed.

End ReconcilerOrder.

(** X1. When the table and the canonical list both have distinct names, the
    canonical columns that the table has come out in canonical order: taking
    the canonical names out of the result gives the canonical list without
    the names the table lacks. *)
Theorem canonical_order_is_kept (all_cols ref_cols : list string) :
  NoDup all_cols → NoDup ref_cols →
  filter (λ c, c ∈ ref_cols) (final_order all_cols ref_cols)
  = filter (λ c, c ∈ all_cols) ref_cols.
Proof.
  intros Hall Href. rewrite final_order_filter by done.
  rewrite list_filter_filter.
  rewrite (list_filter_iff _ (λ c, (c ∈ all_cols) ∧ (c ∈ ref_cols)))
    by (intros; tauto).
  rewrite <- list_filter_filter. f_equal.
  destruct (foldl_place_extra_spec (extras all_cols ref_cols) ref_cols)
    as (_ & _ & Hfil).
  - done.
  - unfold extras. by apply NoDup_filter.
  - intros x Hx. unfold extras in Hx. by apply list_elem_of_filter in Hx as [? _].
  - unfold insert_extras. rewrite (Hfil (λ c, c ∈ ref_cols) _).
    + by apply filter_all.
    + intros x Hx. unfold extras in Hx.
      by apply list_elem_of_filter in Hx as [? _].
Qed.

Lemma canonical_order_is_kept_witness :
  filter (λ c, c ∈ ["A"; "Pay"; "Z"; "B"])
    (final_order ["B"; "Pay2"; "A"; "Pay"] ["A"; "Pay"; "Z"; "B"])
  = filter (λ c, c ∈ ["B"; "Pay2"; "A"; "Pay"]) ["A"; "Pay"; "Z"; "B"].
Proof.
  apply (canonical_order_is_kept ["B"; "Pay2"; "A"; "Pay"]
           ["A"; "Pay"; "Z"; "B"]);
    apply (bool_decide_unpack _); vm_compute; exact I.
Defined.

Section ReconcilerRows.

Lemma reindex_row_lookup cols (r : gmap string cell) c :
  c ∈ cols → reindex_row cols r !! c = Some (get r c).
Proof.
  unfold reindex_row. induction cols as [| x cols IH]; intros Hc.
  - by apply elem_of_nil in Hc.
  - cbn [map]. rewrite list_to_map_cons.
    destruct (decide (x = c)) as [-> | Hne].
    + by rewrite lookup_insert_eq.
    + rewrite lookup_insert_ne by done. apply IH.
      by apply elem_of_cons in Hc as [-> | ?].
Qed.

Lemma reindex_row_lookup_out cols (r : gmap string cell) c :
  c ∉ cols → reindex_row cols r !! c = None.
Proof.
  unfold reindex_row. induction cols as [| x cols IH]; intros Hc.
  - done.
  - cbn [map]. rewrite list_to_map_cons.
    apply not_elem_of_cons in Hc as [Hne Hc].
    rewrite lookup_insert_ne by done. by apply IH.
Qed.

Lemma get_reindex_row cols (r : gmap string cell) c :
  c ∈ cols → get (reindex_row cols r) c = get r c.
Proof. intros Hc. unfold get at 1. by rewrite reindex_row_lookup. Qed.

End ReconcilerRows.

(** X2. Reordering changes no data: the result has the rows of the input,
    in the same order, and each row reads the same under every column of
    the table. *)
Theorem reorder_keeps_row_data (final_df : DataFrame) (ref_cols : list string) :
  unique_labels final_df →
  ∃ out, reorder_like_reference final_df ref_cols = Ok out ∧
         Forall2 (λ r' r : gmap string cell,
                    ∀ c, c ∈ columns final_df → get r' c = get r c)
                 (rows out) (rows final_df).
Proof.
  intros Hu.
  destruct (final_order_tidy (columns final_df) ref_cols) as [_ Hset].
  unfold reorder_like_reference, reindex. case_decide as Heq.
  - exists final_df. split; [done |].
    apply Forall2_same_length_lookup_2; [done |].
    intros i r' r Hr' Hr c _. congruence.
  - rewrite decide_True by exact Hu. eexists. split; [done |].
    cbn [rows]. apply Forall2_map_self. intros r _ c Hc.
    apply get_reindex_row. by apply Hset.
Qed.

Lemma reorder_keeps_row_data_witness :
  ∃ out, reorder_like_reference Samples.sheet ["Name"; "Zed"] = Ok out ∧
         Forall2 (λ r' r : gmap string cell,
                    ∀ c, c ∈ columns Samples.sheet → get r' c = get r c)
                 (rows out) (rows Samples.sheet).
Proof.
  apply (reorder_keeps_row_data Samples.sheet ["Name"; "Zed"]).
  exact sample_sheet_unique.
Defined.

(** X3. A table in which a label occurs twice cannot be reordered: the
    call raises, whatever the canonical list is. *)
Theorem reorder_refuses_duplicate_labels (final_df : DataFrame)
    (ref_cols : list string) :
  ¬ unique_labels final_df →
  reorder_like_reference final_df ref_cols = Raise DuplicateLabels.
Proof.
  intros Hdup.
  destruct (final_order_tidy (columns final_df) ref_cols) as [Hnd _].
  unfold reorder_like_reference, reindex.
  rewrite decide_False by (intros Heq; apply Hdup; unfold unique_labels;
                           by rewrite Heq).
  by rewrite decide_False.
Qed.

Lemma reorder_refuses_duplicate_labels_witness :
  reorder_like_reference (mkFrame ["A"; "B"; "A"] []) ["A"]
  = Raise DuplicateLabels.
Proof.
  apply (reorder_refuses_duplicate_labels (mkFrame ["A"; "B"; "A"] []) ["A"]).
  unfold unique_labels. cbn [columns]. intros Hnd.
  apply NoDup_cons in Hnd as [Hnot _]. apply Hnot.
  apply elem_of_cons. right. apply elem_of_cons. left. reflexivity.
Defined.

(** A table whose columns are the canonical list itself comes back
    unchanged. *)
Lemma reorder_on_canonical_table (final_df : DataFrame) :
  unique_labels final_df →
  reorder_like_reference final_df (columns final_df) = Ok final_df.
Proof.
  intros Hu. unfold reorder_like_reference, reindex.
  rewrite decide_True; [done |].
  rewrite final_order_filter by done.
  unfold insert_extras, extras.
  rewrite (filter_none (λ c, c ∉ columns final_df)) by (intros x Hx Hn; done).
  cbn [foldl]. symmetry. by apply filter_all.
Qed.

(** ** More on extraction *)

Section ExtractionMore.

Lemma split_hyphen_spec s :
  has_char "-" (split_hyphen s).1 = false ∧
  s = match (split_hyphen s).2 with
      | Some rest => (split_hyphen s).1 +:+ "-" +:+ rest
      | None => (split_hyphen s).1
      end.
Proof.
  induction s as [| c s [IH1 IH2]]; [done |]. cbn [split_hyphen].
  destruct (Ascii.eqb_spec c "-") as [-> | Hne]; [done |].
  destruct (split_hyphen s) as [h t]. cbn [fst snd] in *.
  split.
  - cbn [has_char]. rewrite IH1.
    by destruct (Ascii.eqb_spec c "-").
  - destruct t; cbn [String.append]; by rewrite IH2 at 1.
Qed.

Lemma digit_val_range c : is_digit c = true → (0 ≤ digit_val c ≤ 9)%Z.
Proof.
  unfold is_digit, digit_val. cbv zeta.
  rewrite andb_true_iff, !Nat.leb_le. lia.
Qed.

Lemma digit_val_positive c :
  is_digit c = true → Ascii.eqb c "0" = false → (1 ≤ digit_val c ≤ 9)%Z.
Proof.
  intros Hd Hz. pose proof (digit_val_range c Hd) as Hr.
  assert (digit_val c ≠ 0%Z); [| lia].
  unfold digit_val. intros H0.
  assert (Hn : nat_of_ascii c = 48) by lia.
  apply (f_equal ascii_of_nat) in Hn. rewrite ascii_nat_embedding in Hn.
  subst c. discriminate Hz.
Qed.

Lemma eqb_digit_val c d :
  Ascii.eqb c d = true → digit_val c = digit_val d.
Proof. by intros ->%Ascii.eqb_eq. Qed.

Ltac directive_case :=
  repeat match goal with
    | H : _ ∈ _ ++ _ |- _ => apply elem_of_app in H as [H | H]
    | H : _ ∈ (if ?b then _ else _) |- _ => destruct b eqn:?
    | H : _ ∈ [] |- _ => by apply elem_of_nil in H
    | H : _ ∈ [_] |- _ => apply list_elem_of_singleton in H; injection H as -> ->
    | H : _ && _ = true |- _ => apply andb_true_iff in H as [? ?]
    | H : _ || _ = true |- _ => apply orb_true_iff in H as [? | ?]
    | H : negb _ = true |- _ => apply negb_true_iff in H
    end.

Ltac digit_facts :=
  repeat match goal with
    | H : Ascii.eqb ?c ?d = true |- _ =>
        apply eqb_digit_val in H; vm_compute (digit_val d) in H
    | H : is_digit ?c = true, H' : Ascii.eqb ?c "0" = false |- _ =>
        pose proof (digit_val_positive c H H'); clear H'
    | H : is_digit ?c = true |- _ =>
        pose proof (digit_val_range c H); clear H
    end.

Lemma directive_m_range s m rest :
  (m, rest) ∈ directive_m s → (1 ≤ m ≤ 12)%Z.
Proof.
  unfold directive_m. intros H.
  destruct s as [| a [| b r]]; directive_case; digit_facts; lia.
Qed.

Lemma directive_d_range s d rest :
  (d, rest) ∈ directive_d s → (1 ≤ d ≤ 31)%Z.
Proof.
  unfold directive_d. intros H.
  destruct s as [| a [| b r]]; directive_case; digit_facts; lia.
Qed.

(** A text that parses gives a day of the calendar within the range of a
    timestamp. *)
Lemma strptime_mdY_valid s d :
  strptime_mdY s = Some d →
  (1 ≤ month d ≤ 12)%Z ∧
  (1 ≤ day d ≤ days_in_month (year d) (month d))%Z ∧
  (1677 ≤ year d ≤ 2262)%Z.
Proof.
  unfold strptime_mdY, match_mdY.
  destruct (head _) as [[d' rest] |] eqn:Hh; [| done].
  destruct rest; [| done].
  destruct (_ && _) eqn:Hok; [| done]. intros [= ->].
  apply andb_true_iff in Hok as [Hday Hb]. apply Z.leb_le in Hday.
  apply head_Some_elem_of, list_elem_of_omap in Hh as ([[m dd] r] & Hin & Hy).
  apply list_elem_of_bind in Hin as ([m' rm] & Hin & Hm).
  apply list_elem_of_bind in Hin as ([d' rd] & Hin & Hd).
  apply list_elem_of_singleton in Hin. cbn [fst snd] in Hin.
  injection Hin as -> -> ->.
  destruct (directive_Y rd) as [[y r'] |]; [| done].
  injection Hy as <- _. cbn [year month day] in *.
  apply directive_m_range in Hm. apply directive_d_range in Hd.
  unfold in_timestamp_bounds in Hb. cbn [year month day] in Hb.
  apply andb_true_iff in Hb as [Hlo Hhi].
  apply Z.leb_le in Hlo, Hhi. lia.
Qed.

End ExtractionMore.

(** X4. Extraction removes the first two rows of a table that has at least
    two, and no leading row of a table that has fewer.  The extracted rows
    are a selection, in order and with the cells under the original labels
    unchanged, of the rows after the first two (of all the rows when there
    are fewer than two); without an [Employee ID*] column they are exactly
    those rows.  Extraction never adds a row. *)
Theorem extraction_row_count (file_name : string) (raw : DataFrame) :
  unique_labels raw →
  ∃ out, process_payroll_file (mkFile file_name (Some raw)) = Ok out ∧
    (length (rows out) ≤ length (rows raw))%nat ∧
    ((length (rows raw) < 2)%nat →
     sublist (map (restrict (others raw)) (rows out))
             (map (restrict (others raw)) (rows raw)) ∧
     ("Employee ID*" ∉ columns raw →
      map (restrict (others raw)) (rows out)
      = map (restrict (others raw)) (rows raw))) ∧
    ((2 ≤ length (rows raw))%nat →
     sublist (map (restrict (others raw)) (rows out))
             (map (restrict (others raw)) (drop 2 (rows raw))) ∧
     (length (rows out) ≤ length (rows raw) - 2)%nat ∧
     ("Employee ID*" ∉ columns raw →
      map (restrict (others raw)) (rows out)
      = map (restrict (others raw)) (drop 2 (rows raw)) ∧
      length (rows out) = (length (rows raw) - 2)%nat)).
Proof.
  intros _. eexists. split; [apply process_payroll_file_shape |].
  cbn [rows]. rewrite restrict_others_extracted, length_map.
  assert (Hsub : sublist (kept raw) (after_leading_rows raw)).
  { rewrite kept_spec, rows_drop_blank_rows.
    case_decide; [apply sublist_filter | done]. }
  assert (Hall : "Employee ID*" ∉ columns raw →
                 kept raw = after_leading_rows raw).
  { intros Hno. by rewrite kept_spec, decide_False, rows_drop_blank_rows. }
  unfold after_leading_rows in Hsub, Hall.
  split; [| split].
  - apply sublist_length in Hsub.
    destruct (2 <=? length (rows raw))%nat; [rewrite length_drop in Hsub |];
      lia.
  - intros Hn. rewrite (proj2 (Nat.leb_gt _ _) Hn) in Hsub, Hall.
    split; [by apply sublist_map |]. intros Hno. by rewrite Hall.
  - intros Hn. rewrite (proj2 (Nat.leb_le _ _) Hn) in Hsub, Hall.
    split; [by apply sublist_map |]. split.
    + apply sublist_length in Hsub. by rewrite length_drop in Hsub.
    + intros Hno. rewrite Hall by done. by rewrite length_drop.
Qed.

Lemma extraction_row_count_witness :
  ∃ out, process_payroll_file (mkFile "Regular.xlsx" (Some Samples.roster))
         = Ok out ∧
    (length (rows out) ≤ length (rows Samples.roster))%nat ∧
    ((length (rows Samples.roster) < 2)%nat →
     sublist (map (restrict (others Samples.roster)) (rows out))
             (map (restrict (others Samples.roster)) (rows Samples.roster)) ∧
     ("Employee ID*" ∉ columns Samples.roster →
      map (restrict (others Samples.roster)) (rows out)
      = map (restrict (others Samples.roster)) (rows Samples.roster))) ∧
    ((2 ≤ length (rows Samples.roster))%nat →
     sublist (map (restrict (others Samples.roster)) (rows out))
             (map (restrict (others Samples.roster))
                (drop 2 (rows Samples.roster))) ∧
     (length (rows out) ≤ length (rows Samples.roster) - 2)%nat ∧
     ("Employee ID*" ∉ columns Samples.roster →
      map (restrict (others Samples.roster)) (rows out)
      = map (restrict (others Samples.roster))
          (drop 2 (rows Samples.roster)) ∧
      length (rows out) = (length (rows Samples.roster) - 2)%nat)).
Proof.
  apply (extraction_row_count "Regular.xlsx" Samples.roster).
  exact sample_roster_unique.
Defined.

(** X5. [Payroll Type] is the base name up to its first hyphen: it holds
    no hyphen, and the base name is that text alone or that text, a hyphen
    and the date fragment. *)
Theorem payroll_type_is_prefix (file_name : string) (raw : DataFrame) :
  unique_labels raw →
  ∃ out type_text,
    process_payroll_file (mkFile file_name (Some raw)) = Ok out ∧
    (∀ r : gmap string cell, r ∈ rows out →
       get r "Payroll Type" = CStr type_text) ∧
    has_char "-" type_text = false ∧
    (period_of file_name = type_text ∨
     ∃ fragment, period_of file_name = type_text +:+ "-" +:+ fragment).
Proof.
  intros _. exists (mkFrame (leading ++ others raw)
                      (map (λ r, restrict (leading ++ others raw)
                                   (augment (period_of file_name) r))
                           (kept raw))),
    (split_hyphen (period_of file_name)).1.
  split; [apply process_payroll_file_shape |].
  destruct (split_hyphen_spec (period_of file_name)) as [Hno Heq].
  split; [| split; [done |]].
  - cbn [rows]. intros r Hr.
    destruct (extracted_row _ _ _ Hr) as (Ht & _).
    by rewrite (get_lookup _ _ _ Ht).
  - destruct (split_hyphen (period_of file_name)).2 as [fragment |].
    + right. by exists fragment.
    + by left.
Qed.

Lemma payroll_type_is_prefix_witness :
  ∃ out type_text,
    process_payroll_file
      (mkFile "Regular-01152024.xlsx" (Some Samples.sheet)) = Ok out ∧
    (∀ r : gmap string cell, r ∈ rows out →
       get r "Payroll Type" = CStr type_text) ∧
    has_char "-" type_text = false ∧
    (period_of "Regular-01152024.xlsx" = type_text ∨
     ∃ fragment,
       period_of "Regular-01152024.xlsx" = type_text +:+ "-" +:+ fragment).
Proof.
  apply (payroll_type_is_prefix "Regular-01152024.xlsx" Samples.sheet).
  exact sample_sheet_unique.
Defined.

(** X6. A [Payroll Date] that is not missing is a day of the calendar
    (the month between 1 and 12, the day within that month's length in that
    year), and [Month] is the English name of its month. *)
Theorem payroll_date_is_calendar_day (file_name : string) (raw : DataFrame) :
  unique_labels raw →
  ∃ out, process_payroll_file (mkFile file_name (Some raw)) = Ok out ∧
    ∀ (r : gmap string cell) (d : date), r ∈ rows out →
      get r "Payroll Date" = CTimestamp d →
      (1 ≤ month d ≤ 12)%Z ∧
      (1 ≤ day d ≤ days_in_month (year d) (month d))%Z ∧
      get r "Month" = CStr (month_name (month d)).
Proof.
  intros _. eexists. split; [apply process_payroll_file_shape |].
  cbn [rows]. intros r d Hr.
  destruct (extracted_row _ _ _ Hr) as (_ & Hd & _ & Hm & _).
  rewrite (get_lookup _ _ _ Hd), (get_lookup _ _ _ Hm). intros Hdate.
  rewrite Hdate. cbn [dt_month_name].
  unfold payroll_date_of in Hdate.
  destruct (split_hyphen (period_of file_name)).2 as [fragment |]; [| done].
  cbn [to_datetime] in Hdate.
  destruct (strptime_mdY fragment) as [d' |] eqn:Hs; [| done].
  injection Hdate as ->.
  destruct (strptime_mdY_valid _ _ Hs) as (? & ? & ?). done.
Qed.

Lemma payroll_date_is_calendar_day_witness :
  ∃ out, process_payroll_file
           (mkFile "Regular-01312024.xlsx" (Some Samples.sheet)) = Ok out ∧
    ∀ (r : gmap string cell) (d : date), r ∈ rows out →
      get r "Payroll Date" = CTimestamp d →
      (1 ≤ month d ≤ 12)%Z ∧
      (1 ≤ day d ≤ days_in_month (year d) (month d))%Z ∧
      get r "Month" = CStr (month_name (month d)).
Proof.
  apply (payroll_date_is_calendar_day "Regular-01312024.xlsx" Samples.sheet).
  exact sample_sheet_unique.
Defined.

(** X7. The canonical order depends on the header of the reference
    workbook alone: it is the four derived labels followed by the other
    headers, without repetition, whatever the rows and the file name are. *)
Theorem reference_columns_from_header (ref_name : string) (raw : DataFrame) :
  unique_labels raw →
  derive_ref_columns (mkFile ref_name (Some raw))
  = Ok (leading
        ++ filter (λ c, (c ∉ leading) ∧ (c ≠ "Payroll Period")) (columns raw)) ∧
  NoDup (leading
         ++ filter (λ c, (c ∉ leading) ∧ (c ≠ "Payroll Period")) (columns raw)).
Proof.
  intros Hu. split.
  - unfold derive_ref_columns. by rewrite process_payroll_file_shape.
  - by apply NoDup_others.
Qed.

Lemma reference_columns_from_header_witness :
  derive_ref_columns (mkFile "REF-01152024.xlsx" (Some Samples.sheet))
  = Ok (leading
        ++ filter (λ c, (c ∉ leading) ∧ (c ≠ "Payroll Period"))
             (columns Samples.sheet)) ∧
  NoDup (leading
         ++ filter (λ c, (c ∉ leading) ∧ (c ≠ "Payroll Period"))
              (columns Samples.sheet)).
Proof.
  apply (reference_columns_from_header "REF-01152024.xlsx" Samples.sheet).
  exact sample_sheet_unique.
Defined.

(** ** More on consolidation *)

Section ConsolidationMore.

Lemma visit_unaccepted a uf : accepted uf = false → visit a uf = a.
Proof.
  intros Ha.
  destruct (visit_cases a uf) as [[_ ->] | [(H & _) | [(H & _) | (H & _)]]];
    congruence.
Qed.

Lemma length_attempted_duplicates seen l :
  length (attempted seen l) + length (duplicates seen l)
  = length (List.filter accepted l).
Proof.
  revert seen; induction l as [| uf l IH]; intros seen; [done |].
  cbn [attempted duplicates List.filter].
  destruct (accepted uf); [| apply IH].
  case_decide; cbn [length].
  - specialize (IH seen). lia.
  - specialize (IH ({[base_of uf]} ∪ seen)). lia.
Qed.

Lemma outcome_ok uf df :
  extraction uf = Ok df →
  extracted uf = Some df ∧ processed_name uf = Some (name uf) ∧
  failed_name uf = None.
Proof. intros He. unfold extracted, processed_name, failed_name. by rewrite He. Qed.

Lemma outcome_raise uf e :
  extraction uf = Raise e →
  extracted uf = None ∧ processed_name uf = None ∧
  failed_name uf = Some (name uf).
Proof. intros He. unfold extracted, processed_name, failed_name. by rewrite He. Qed.

Lemma length_outcomes (l : list file_like) :
  length (omap processed_name l) + length (omap failed_name l) = length l ∧
  length (omap extracted l) = length (omap processed_name l).
Proof.
  induction l as [| uf l [IH1 IH2]]; [done |].
  cbn [omap list_omap].
  destruct (extraction uf) as [df | e] eqn:He.
  - destruct (outcome_ok _ _ He) as (-> & -> & ->). cbn [length]. lia.
  - destruct (outcome_raise _ _ He) as (-> & -> & ->). cbn [length]. lia.
Qed.

Lemma attempted_bases seen l :
  NoDup (map rsplit_dot_head (omap processed_name (attempted seen l))) ∧
  ∀ b, b ∈ map rsplit_dot_head (omap processed_name (attempted seen l)) →
       b ∉ seen.
Proof.
  revert seen; induction l as [| uf l IH]; intros seen.
  { split; [constructor | intros b Hb; by apply elem_of_nil in Hb]. }
  cbn [attempted]. destruct (accepted uf); [| apply IH].
  case_decide as Hin; [apply IH |].
  destruct (IH ({[base_of uf]} ∪ seen)) as [Hnd Hout].
  cbn [omap list_omap].
  destruct (extraction uf) as [df | e] eqn:He.
  - destruct (outcome_ok _ _ He) as (_ & -> & _). cbn [map]. split.
    + apply NoDup_cons. split; [| done].
      intros Hb. apply (Hout _ Hb). apply elem_of_union. left.
      by apply elem_of_singleton.
    + intros b [-> | Hb]%elem_of_cons; [done |].
      intros Hs. apply (Hout _ Hb). apply elem_of_union. by right.
  - destruct (outcome_raise _ _ He) as (_ & -> & _).
    split; [done |]. intros b Hb Hs.
    apply (Hout _ Hb). apply elem_of_union. by right.
Qed.

Lemma nothing_attempted_succeeds seen l :
  (∀ uf, uf ∈ l → accepted uf = true → ∃ e, extraction uf = Raise e) →
  omap extracted (attempted seen l) = [] ∧
  omap processed_name (attempted seen l) = [].
Proof.
  intros Hfail.
  assert (Hall : ∀ uf, uf ∈ attempted seen l → ∃ e, extraction uf = Raise e).
  { intros uf Huf. apply Hfail; [by eapply attempted_sublist |].
    clear Hfail. revert seen Huf. induction l as [| x l IH]; intros seen.
    - cbn. by intros ?%elem_of_nil.
    - cbn [attempted]. destruct (accepted x) eqn:Hx; [case_decide |].
      + apply IH.
      + intros [-> | ?]%elem_of_cons; [done | by eapply IH].
      + apply IH. }
  induction (attempted seen l) as [| uf att IH]; [done |].
  destruct IH as [IH1 IH2]; [intros x Hx; apply Hall; by right |].
  destruct (Hall uf) as [e He]; [by left |].
  destruct (outcome_raise _ _ He) as (E1 & E2 & _).
  cbn [omap list_omap]. by rewrite E1, E2.
Qed.

End ConsolidationMore.

(** X8. A file whose name does not end in [.xlsx] (in any letter case) is
    passed over as if it were not in the list: it is neither processed nor
    skipped, and it reserves no base name. *)
Theorem unaccepted_file_is_ignored
    (pre post : list file_like) (uf : file_like) (ref_cols : list string) :
  accepted uf = false →
  visit_all (pre ++ uf :: post) = visit_all (pre ++ post) ∧
  consolidate (pre ++ uf :: post) ref_cols = consolidate (pre ++ post) ref_cols.
Proof.
  intros Ha.
  assert (Hv : visit_all (pre ++ uf :: post) = visit_all (pre ++ post)).
  { unfold visit_all. rewrite !foldl_app. cbn [foldl].
    by rewrite visit_unaccepted. }
  split; [done |]. unfold consolidate. by rewrite Hv.
Qed.

Lemma unaccepted_file_is_ignored_witness :
  visit_all ([] ++ mkFile "notes.txt" None
                :: [mkFile "Regular-01152024.xlsx" (Some Samples.sheet)])
  = visit_all ([] ++ [mkFile "Regular-01152024.xlsx" (Some Samples.sheet)]) ∧
  consolidate ([] ++ mkFile "notes.txt" None
                  :: [mkFile "Regular-01152024.xlsx" (Some Samples.sheet)])
    ["Name"]
  = consolidate ([] ++ [mkFile "Regular-01152024.xlsx" (Some Samples.sheet)])
      ["Name"].
Proof.
  apply (unaccepted_file_is_ignored []
           [mkFile "Regular-01152024.xlsx" (Some Samples.sheet)]
           (mkFile "notes.txt" None) ["Name"]).
  vm_compute. reflexivity.
Defined.

(** X9. Every file with the accepted extension is accounted for exactly
    once: it is processed, skipped as a duplicate, or reported as failed;
    and there is one collected table per processed name. *)
Theorem upload_accounting (uploads : list file_like) :
  length (processed (visit_all uploads)) + length (skipped (visit_all uploads))
  + length (warned (visit_all uploads))
  = length (List.filter accepted uploads) ∧
  length (dfs (visit_all uploads)) = length (processed (visit_all uploads)).
Proof.
  destruct (foldl_visit_spec uploads acc0) as (Hd & Hp & Hs & _ & Hw).
  fold (visit_all uploads) in Hd, Hp, Hs, Hw.
  rewrite Hd, Hp, Hs, Hw. cbn [dfs processed skipped warned acc0 app].
  change (seen_bases acc0) with (∅ : gset string).
  rewrite length_map.
  destruct (length_outcomes (attempted ∅ uploads)) as [H1 H2].
  pose proof (length_attempted_duplicates ∅ uploads). split; lia.
Qed.

(** X10. No two processed files share a base name. *)
Theorem processed_bases_are_distinct (uploads : list file_like) :
  NoDup (map rsplit_dot_head (processed (visit_all uploads))).
Proof.
  destruct (visit_all_spec uploads) as (_ & -> & _).
  apply attempted_bases.
Qed.

(** X11. When no accepted file can be extracted, [consolidate] returns the
    empty table with an empty processed list, and the duplicates are still
    listed as skipped. *)
Theorem nothing_extracted_gives_empty_table
    (uploads : list file_like) (ref_cols : list string) :
  (∀ uf, uf ∈ uploads → accepted uf = true → ∃ e, extraction uf = Raise e) →
  consolidate uploads ref_cols
  = Ok (empty_frame, [], map name (duplicates ∅ uploads)).
Proof.
  intros Hfail.
  destruct (nothing_attempted_succeeds ∅ uploads Hfail) as [Hd Hp].
  destruct (visit_all_spec uploads) as (Hdfs & Hproc & Hskip).
  unfold consolidate, finish. by rewrite Hdfs, Hd, Hproc, Hp, Hskip.
Qed.

Lemma nothing_extracted_gives_empty_table_witness :
  consolidate [mkFile "A-01152024.xlsx" None; mkFile "A-01152024.XLSX" None]
    ["Name"]
  = Ok (empty_frame, [],
        map name (duplicates ∅ [mkFile "A-01152024.xlsx" None;
                                mkFile "A-01152024.XLSX" None])).
Proof.
  apply (nothing_extracted_gives_empty_table
           [mkFile "A-01152024.xlsx" None; mkFile "A-01152024.XLSX" None]
           ["Name"]).
  intros uf Huf _. exists ParseError.
  apply elem_of_cons in Huf as [-> | Huf]; [reflexivity |].
  apply list_elem_of_singleton in Huf as ->. reflexivity.
Defined.

(** ** The consolidated table *)

Section ConsolidatedTable.

Lemma reindex_related cols df out :
  reindex cols df = Ok out →
  columns out = cols ∧
  Forall2 (λ r' r : gmap string cell, ∀ c, c ∈ cols → get r' c = get r c)
          (rows out) (rows df).
Proof.
  unfold reindex. case_decide as Heq.
  - intros [= <-]. split; [done |].
    apply Forall2_same_length_lookup_2; [done |].
    intros i r' r Hr' Hr c _. congruence.
  - case_decide; [| done]. intros [= <-]. split; [done |].
    cbn [rows]. apply Forall2_map_self. intros r _ c Hc.
    by apply get_reindex_row.
Qed.

Lemma elem_of_union_columns (tables : list DataFrame) c :
  c ∈ union_columns tables ↔ ∃ df, df ∈ tables ∧ c ∈ columns df.
Proof.
  unfold union_columns.
  assert (Hgen : ∀ acc,
            c ∈ foldl (λ acc df, acc ++ filter (λ c, c ∉ acc) (columns df))
                  acc tables
            ↔ c ∈ acc ∨ ∃ df, df ∈ tables ∧ c ∈ columns df).
  { induction tables as [| df tables IH]; intros acc; cbn [foldl].
    - split; [by left |]. intros [? | (df & Hdf & _)]; [done |].
      by apply elem_of_nil in Hdf.
    - rewrite IH, elem_of_app, list_elem_of_filter. split.
      + intros [[? | [_ ?]] | (df' & Hdf' & ?)].
        * by left.
        * right. exists df. split; [by left | done].
        * right. exists df'. split; [by right | done].
      + intros [? | (df' & Hdf' & Hc)]; [by left; left |].
        apply elem_of_cons in Hdf' as [-> | Hdf'].
        * left. destruct (decide (c ∈ acc)); [by left | by right].
        * right. by exists df'. }
  rewrite Hgen. split; [| by right].
  intros [Hc | ?]; [by apply elem_of_nil in Hc | done].
Qed.

Lemma length_bind_rows (f : DataFrame → list (gmap string cell))
    (tables : list DataFrame) :
  (∀ df, length (f df) = length (rows df)) →
  length (tables ≫= f) = sum_list (map (λ df, length (rows df)) tables).
Proof.
  intros Hf. induction tables as [| df tables IH]; [done |].
  cbn [map sum_list]. rewrite <- IH, <- Hf.
  change ((df :: tables) ≫= f) with (f df ++ (tables ≫= f)).
  apply length_app.
Qed.

(** The table that [pd.concat] builds: its size, its labels, and where each
    of its rows comes from. *)
Lemma concat_related (tables : list DataFrame) merged :
  concat tables = Ok merged →
  length (rows merged) = sum_list (map (λ df, length (rows df)) tables) ∧
  (∀ c, c ∈ columns merged ↔ ∃ df, df ∈ tables ∧ c ∈ columns df) ∧
  ∀ r, r ∈ rows merged →
       ∃ df r0, df ∈ tables ∧ r0 ∈ rows df ∧
                ∀ c, c ∈ columns merged → get r c = get r0 c.
Proof.
  unfold concat. destruct tables as [| df0 tables]; [done |].
  case_decide as Hsame.
  - intros Hm.
    assert (Hc : columns merged = columns df0) by (by injection Hm as <-).
    assert (Hr : rows merged = (df0 :: tables) ≫= rows)
      by (by injection Hm as <-).
    rewrite Hc, Hr. clear Hm. split; [| split].
    + by apply length_bind_rows.
    + intros c. split.
      * intros Hin. exists df0. split; [by left | done].
      * intros (df & Hdf & Hin). rewrite Forall_forall in Hsame.
        by rewrite <- (Hsame df Hdf).
    + intros r Hin. apply list_elem_of_bind in Hin as (df & Hin & Hdf).
      by exists df, r.
  - case_decide; [| done]. intros Hm.
    assert (Hc : columns merged = union_columns (df0 :: tables))
      by (by injection Hm as <-).
    assert (Hr : rows merged
                 = (df0 :: tables) ≫=
                     λ df, map (reindex_row (union_columns (df0 :: tables)))
                             (rows df))
      by (by injection Hm as <-).
    rewrite Hc, Hr. clear Hm. split; [| split].
    + apply length_bind_rows. intros df. apply length_map.
    + apply elem_of_union_columns.
    + intros r Hin. apply list_elem_of_bind in Hin as (df & Hin & Hdf).
      apply elem_of_map in Hin as (r0 & -> & Hr0).
      exists df, r0. repeat split; [done | done |].
      intros c Hin. by apply get_reindex_row.
Qed.

Lemma reorder_related final_df ref_cols out :
  reorder_like_reference final_df ref_cols = Ok out →
  length (rows out) = length (rows final_df) ∧
  NoDup (columns out) ∧
  (∀ c, c ∈ columns out ↔ c ∈ columns final_df) ∧
  ∀ r, r ∈ rows out →
       ∃ r0, r0 ∈ rows final_df ∧ ∀ c, c ∈ columns out → get r c = get r0 c.
Proof.
  unfold reorder_like_reference. intros [Hcols Hrows]%reindex_related.
  destruct (final_order_tidy (columns final_df) ref_cols) as [Hnd Hset].
  split; [by apply Forall2_length in Hrows |].
  split; [by rewrite Hcols |].
  split; [intros c; by rewrite Hcols |].
  intros r Hr. apply list_elem_of_lookup in Hr as [i Hi].
  destruct (Forall2_lookup_l _ _ _ _ _ Hrows Hi) as (r0 & Hi0 & Hget).
  exists r0. split; [by eapply list_elem_of_lookup_2 |].
  intros c Hc. apply Hget. by rewrite <- Hcols.
Qed.

(** A row of an extracted table reads as missing outside the table's
    columns. *)
Lemma extracted_row_outside file_name raw out (r : gmap string cell) c :
  process_payroll_file (mkFile file_name (Some raw)) = Ok out →
  r ∈ rows out → c ∉ columns out → get r c = CNull.
Proof.
  rewrite process_payroll_file_shape. intros [= <-]. cbn [rows columns].
  intros Hr Hc. apply elem_of_map in Hr as (r0 & -> & _).
  unfold get. by rewrite restrict_lookup_out.
Qed.

Lemma attempted_accepted seen l uf :
  uf ∈ attempted seen l → accepted uf = true.
Proof.
  revert seen; induction l as [| x l IH]; intros seen; cbn [attempted].
  - by intros ?%elem_of_nil.
  - destruct (accepted x) eqn:Hx; [case_decide |].
    + apply IH.
    + intros [-> | ?]%elem_of_cons; [done | by eapply IH].
    + apply IH.
Qed.

Lemma extracted_Some uf df : extracted uf = Some df ↔ extraction uf = Ok df.
Proof.
  unfold extracted. destruct (extraction uf); split; congruence.
Qed.

End ConsolidatedTable.

Section RunSupport.

Lemma sum_list_zero (tables : list DataFrame) :
  (∀ df, df ∈ tables → rows df = []) →
  sum_list (map (λ df, length (rows df)) tables) = 0.
Proof.
  induction tables as [| df tables IH]; intros Hall; [done |].
  cbn [map sum_list]. rewrite (Hall df) by (by left).
  rewrite IH; [done |]. intros x Hx. apply Hall. by right.
Qed.

Lemma concat_singleton df : concat [df] = Ok df.
Proof.
  unfold concat. rewrite decide_True by (by constructor).
  destruct df as [cols rws]. cbn [columns]. do 2 f_equal.
  apply (bind_singleton rows).
Qed.

Lemma length_dfs_processed uploads :
  length (dfs (visit_all uploads)) = length (processed (visit_all uploads)).
Proof.
  destruct (visit_all_spec uploads) as (-> & -> & _).
  by destruct (length_outcomes (attempted ∅ uploads)).
Qed.

Lemma extraction_readable uf df :
  extraction uf = Ok df → ∃ raw, content uf = Some raw.
Proof.
  unfold extraction, process_payroll_file, read_excel. cbn [content].
  destruct (content uf) as [raw |]; [by exists raw | done].
Qed.

End RunSupport.

(** X12. When every table that can be extracted has no row left, the run
    ends with the "no files were processed" warning, although the files
    were extracted. *)
Theorem run_reports_nothing_without_rows
    (ref : file_like) (cols : list string) (uploads : list file_like) :
  Forall readable_unique uploads → uploads ≠ [] →
  derive_ref_columns ref = Ok cols →
  (∀ uf df, uf ∈ uploads → extraction uf = Ok df → rows df = []) →
  run (Some ref) uploads true = NoFilesProcessed.
Proof.
  intros Hall Hne Href Hrows.
  destruct (consolidate_returns uploads cols Hall) as (t & Ht & H0 & H1).
  unfold run. destruct uploads as [| f fs] eqn:Hup; [done |].
  cbn [length Nat.eqb negb]. rewrite Href. rewrite <- Hup in *.
  rewrite Ht. rewrite bool_decide_eq_true_2; [done |].
  destruct (omap extracted (attempted ∅ uploads)) as [| df0 tables] eqn:Hd.
  - left. by rewrite H0.
  - right. destruct H1 as (merged & Hm & Hr); [done |].
    destruct (concat_related _ _ Hm) as (Hlen & _).
    destruct (reorder_related _ _ _ Hr) as (Hlen' & _).
    rewrite sum_list_zero in Hlen.
    + apply length_zero_iff_nil. congruence.
    + intros df Hdf. rewrite <- Hd in Hdf.
      apply list_elem_of_omap in Hdf as (uf & Huf & Hex).
      apply (Hrows uf); [by eapply attempted_sublist |].
      by apply extracted_Some.
Qed.

Lemma run_reports_nothing_without_rows_witness :
  run (Some (mkFile "REF-01152024.xlsx" (Some Samples.plain)))
      [mkFile "Regular-01152024.xlsx" (Some (mkFrame ["Name"] []))] true
  = NoFilesProcessed.
Proof.
  apply (run_reports_nothing_without_rows
           (mkFile "REF-01152024.xlsx" (Some Samples.plain))
           ["Payroll Type"; "Payroll Date"; "Month"; "Cutoff Type"; "Name"]
           [mkFile "Regular-01152024.xlsx" (Some (mkFrame ["Name"] []))]).
  - constructor; [| constructor]. apply readable_unique_some.
    apply (bool_decide_unpack _). vm_compute. exact I.
  - discriminate.
  - vm_compute. reflexivity.
  - intros uf df Huf. apply list_elem_of_singleton in Huf as ->.
    intros Hdf. vm_compute in Hdf. injection Hdf as <-. reflexivity.
Defined.

(** X13. One workbook consolidated against the canonical order of a
    reference with the same headers comes out exactly as extraction made
    it: same columns in the same order, same rows. *)
Theorem single_file_keeps_extraction
    (file_name ref_name : string) (raw raw_ref : DataFrame) :
  endswith (lower file_name) ".xlsx" = true →
  unique_labels raw → columns raw_ref = columns raw →
  ∃ out cols,
    process_payroll_file (mkFile file_name (Some raw)) = Ok out ∧
    derive_ref_columns (mkFile ref_name (Some raw_ref)) = Ok cols ∧
    consolidate [mkFile file_name (Some raw)] cols
    = Ok (out, [file_name], []).
Proof.
  intros Hacc Hu Hcols.
  set (out := mkFrame (leading ++ others raw)
                (map (λ r, restrict (leading ++ others raw)
                             (augment (period_of file_name) r)) (kept raw))).
  assert (Hout : process_payroll_file (mkFile file_name (Some raw)) = Ok out)
    by apply process_payroll_file_shape.
  exists out, (leading ++ others raw).
  split; [done |]. split.
  { unfold derive_ref_columns. rewrite process_payroll_file_shape.
    unfold others. by rewrite Hcols. }
  unfold consolidate, visit_all. cbn [foldl].
  destruct (visit_cases acc0 (mkFile file_name (Some raw)))
    as [[Ha _] | [(_ & Hin & _) | [(_ & _ & df & Hdf & ->)
                                  | (_ & _ & e & He & _)]]].
  - unfold accepted in Ha. cbn [name] in Ha. congruence.
  - cbn [seen_bases acc0] in Hin. by apply elem_of_empty in Hin.
  - unfold extraction in Hdf. cbn [name content] in Hdf.
    rewrite Hout in Hdf. injection Hdf as <-.
    unfold finish. cbn [dfs processed skipped acc0 app name].
    rewrite concat_singleton.
    change (leading ++ others raw) with (columns out).
    pose proof (reorder_on_canonical_table out (NoDup_others raw Hu)) as Hre.
    change (reorder_like_reference out (columns out) = Ok out) in Hre.
    cbn [mbind result_bind]. by rewrite Hre.
  - unfold extraction in He. cbn [name content] in He. congruence.
Qed.

Lemma single_file_keeps_extraction_witness :
  ∃ out cols,
    process_payroll_file
      (mkFile "Regular-01152024.xlsx" (Some Samples.sheet)) = Ok out ∧
    derive_ref_columns (mkFile "REF-01312024.xlsx" (Some Samples.sheet))
    = Ok cols ∧
    consolidate [mkFile "Regular-01152024.xlsx" (Some Samples.sheet)] cols
    = Ok (out, ["Regular-01152024.xlsx"], []).
Proof.
  apply (single_file_keeps_extraction "Regular-01152024.xlsx"
           "REF-01312024.xlsx" Samples.sheet Samples.sheet).
  - vm_compute. reflexivity.
  - exact sample_sheet_unique.
  - reflexivity.
Defined.

(** X14. The consolidated table has one row per row of the collected
    tables (rows are never merged or dropped), its labels are distinct, and
    they are exactly the labels that occur in some collected table. *)
Theorem consolidated_table_shape
    (uploads : list file_like) (ref_cols : list string) :
  Forall readable_unique uploads →
  ∃ t p s,
    consolidate uploads ref_cols = Ok (t, p, s) ∧
    length (rows t)
    = sum_list (map (λ df, length (rows df)) (dfs (visit_all uploads))) ∧
    NoDup (columns t) ∧
    ∀ c, c ∈ columns t ↔ ∃ df, df ∈ dfs (visit_all uploads) ∧ c ∈ columns df.
Proof.
  intros Hall.
  destruct (consolidate_returns uploads ref_cols Hall) as (t & Ht & H0 & H1).
  destruct (visit_all_spec uploads) as (Hd & _).
  exists t, (omap processed_name (attempted ∅ uploads)),
    (map name (duplicates ∅ uploads)).
  split; [done |]. rewrite Hd.
  destruct (omap extracted (attempted ∅ uploads)) as [| df0 tables] eqn:He.
  - rewrite H0 by done. cbn [empty_frame rows columns map sum_list length].
    split; [done |]. split; [constructor |].
    intros c. split; [by intros ?%elem_of_nil |].
    intros (df & Hdf & _). by apply elem_of_nil in Hdf.
  - destruct H1 as (merged & Hm & Hr); [done |].
    destruct (concat_related _ _ Hm) as (Hlen & Hcols & _).
    destruct (reorder_related _ _ _ Hr) as (Hlen' & Hnd & Hcols' & _).
    split; [congruence |]. split; [done |].
    intros c. by rewrite Hcols', Hcols.
Qed.

Lemma consolidated_table_shape_witness :
  ∃ t p s,
    consolidate [mkFile "Regular-01152024.xlsx" (Some Samples.sheet);
                 mkFile "Bonus-01312024.xlsx" (Some Samples.plain)] ["Name"]
    = Ok (t, p, s) ∧
    length (rows t)
    = sum_list
        (map (λ df, length (rows df))
           (dfs (visit_all
                   [mkFile "Regular-01152024.xlsx" (Some Samples.sheet);
                    mkFile "Bonus-01312024.xlsx" (Some Samples.plain)]))) ∧
    NoDup (columns t) ∧
    ∀ c, c ∈ columns t ↔
         ∃ df, df ∈ dfs (visit_all
                           [mkFile "Regular-01152024.xlsx" (Some Samples.sheet);
                            mkFile "Bonus-01312024.xlsx" (Some Samples.plain)])
               ∧ c ∈ columns df.
Proof.
  apply (consolidated_table_shape
           [mkFile "Regular-01152024.xlsx" (Some Samples.sheet);
            mkFile "Bonus-01312024.xlsx" (Some Samples.plain)] ["Name"]).
  constructor; [| constructor; [| constructor]].
  - apply readable_unique_some. exact sample_sheet_unique.
  - apply readable_unique_some. exact sample_plain_unique.
Defined.

(** X15. Every row of the consolidated table comes from a row of one
    processed file: under the file's columns it holds the text, the date or
    the missing value that row holds there (whole numbers are left out,
    see [concat]), it reads as missing under the columns the file lacks, and
    it carries the [Payroll Type] and [Payroll Date] derived from that
    file's name. *)
Theorem consolidated_rows_come_from_files
    (uploads : list file_like) (ref_cols : list string) :
  Forall readable_unique uploads →
  ∃ t p s,
    consolidate uploads ref_cols = Ok (t, p, s) ∧
    ∀ r : gmap string cell, r ∈ rows t →
      ∃ uf df (r0 : gmap string cell),
        uf ∈ uploads ∧ name uf ∈ p ∧ extraction uf = Ok df ∧ r0 ∈ rows df ∧
        (∀ c, c ∈ columns df → (∀ n, get r0 c ≠ CInt n) →
              get r c = get r0 c) ∧
        (∀ c, c ∈ columns t → c ∉ columns df → get r c = CNull) ∧
        get r "Payroll Type" = payroll_type_of (name uf) ∧
        get r "Payroll Date" = payroll_date_of (name uf).
Proof.
  intros Hall.
  destruct (consolidate_returns uploads ref_cols Hall) as (t & Ht & H0 & H1).
  exists t, (omap processed_name (attempted ∅ uploads)),
    (map name (duplicates ∅ uploads)).
  split; [done |]. intros r Hr.
  destruct (omap extracted (attempted ∅ uploads)) as [| df0 tables] eqn:He.
  { rewrite H0 in Hr by done. by apply elem_of_nil in Hr. }
  destruct H1 as (merged & Hm & Hre); [done |].
  destruct (reorder_related _ _ _ Hre) as (_ & _ & Hcols' & Hrows').
  destruct (concat_related _ _ Hm) as (_ & Hcols & Hrows).
  destruct (Hrows' r Hr) as (r1 & Hr1 & Hget1).
  destruct (Hrows r1 Hr1) as (df & r0 & Hdf & Hr0 & Hget0).
  rewrite <- He in Hdf.
  apply list_elem_of_omap in Hdf as (uf & Huf & Hex).
  apply extracted_Some in Hex.
  destruct (extraction_readable _ _ Hex) as [raw Hraw].
  assert (Hshape : process_payroll_file (mkFile (name uf) (Some raw)) = Ok df)
    by (unfold extraction in Hex; by rewrite Hraw in Hex).
  assert (Hchain : ∀ c, c ∈ columns t → get r c = get r0 c).
  { intros c Hc. rewrite (Hget1 c Hc). apply Hget0. by apply Hcols'. }
  assert (Hsub : ∀ c, c ∈ columns df → c ∈ columns t).
  { intros c Hc. apply Hcols', Hcols. rewrite <- He.
    exists df. split; [| done]. apply list_elem_of_omap. exists uf.
    split; [done | by apply extracted_Some]. }
  exists uf, df, r0.
  split; [by eapply attempted_sublist |].
  split. { apply list_elem_of_omap. exists uf. split; [done |].
           by destruct (outcome_ok _ _ Hex) as (_ & ? & _). }
  split; [done |]. split; [done |].
  split; [intros c Hc _; by apply Hchain, Hsub |].
  split.
  { intros c Hc Hout. rewrite (Hchain c Hc).
    by eapply extracted_row_outside. }
  pose proof Hshape as Hshape'.
  rewrite process_payroll_file_shape in Hshape'. injection Hshape' as <-.
  cbn [rows columns] in *.
  destruct (extracted_row _ _ _ Hr0) as (Ht0 & Hd0 & _).
  split.
  - rewrite Hchain by (apply Hsub, leading_in_output; unfold leading;
                       rewrite !elem_of_cons; auto 6).
    by apply get_lookup.
  - rewrite Hchain by (apply Hsub, leading_in_output; unfold leading;
                       rewrite !elem_of_cons; auto 6).
    by apply get_lookup.
Qed.

Lemma consolidated_rows_come_from_files_witness :
  ∃ t p s,
    consolidate [mkFile "Regular-01152024.xlsx" (Some Samples.sheet);
                 mkFile "Bonus-01312024.xlsx" (Some Samples.plain)] ["Name"]
    = Ok (t, p, s) ∧
    ∀ r : gmap string cell, r ∈ rows t →
      ∃ uf df (r0 : gmap string cell),
        uf ∈ [mkFile "Regular-01152024.xlsx" (Some Samples.sheet);
              mkFile "Bonus-01312024.xlsx" (Some Samples.plain)] ∧
        name uf ∈ p ∧ extraction uf = Ok df ∧ r0 ∈ rows df ∧
        (∀ c, c ∈ columns df → (∀ n, get r0 c ≠ CInt n) →
              get r c = get r0 c) ∧
        (∀ c, c ∈ columns t → c ∉ columns df → get r c = CNull) ∧
        get r "Payroll Type" = payroll_type_of (name uf) ∧
        get r "Payroll Date" = payroll_date_of (name uf).
Proof.
  apply (consolidated_rows_come_from_files
           [mkFile "Regular-01152024.xlsx" (Some Samples.sheet);
            mkFile "Bonus-01312024.xlsx" (Some Samples.plain)] ["Name"]).
  constructor; [| constructor; [| constructor]].
  - apply readable_unique_some. exact sample_sheet_unique.
  - apply readable_unique_some. exact sample_plain_unique.
Defined.

(** X16. A run that ends with a download was confirmed, had a reference
    whose columns could be derived, processed at least one file, and its
    table (the one [consolidate] returned) has rows and columns. *)
Theorem completed_run_has_rows
    (ref_file : option file_like) (payroll_files : list file_like)
    (confirmed : bool) (t : DataFrame) (p s : list string) :
  run ref_file payroll_files confirmed = Completed t p s →
  confirmed = true ∧ payroll_files ≠ [] ∧ p ≠ [] ∧
  rows t ≠ [] ∧ columns t ≠ [] ∧
  ∃ ref cols, ref_file = Some ref ∧ derive_ref_columns ref = Ok cols ∧
              consolidate payroll_files cols = Ok (t, p, s).
Proof.
  unfold run. destruct ref_file as [ref |]; [| done].
  destruct payroll_files as [| f fs] eqn:Hfiles; [done |].
  cbn [length Nat.eqb]. destruct confirmed; [| done]. cbn [negb].
  destruct (derive_ref_columns ref) as [cols | e] eqn:Href; [| done].
  rewrite <- Hfiles.
  destruct (consolidate payroll_files cols) as [[[t' p'] s'] | e] eqn:Hc;
    [| done].
  case_bool_decide as Hempty; [done |]. intros [= <- <- <-].
  assert (Hrows : rows t' ≠ []) by tauto.
  assert (Hcolumns : columns t' ≠ []) by tauto.
  split; [done |]. split; [by rewrite Hfiles |].
  split; [| split; [done | split; [done | by exists ref, cols]]].
  unfold consolidate, finish in Hc.
  pose proof (length_dfs_processed payroll_files) as Hlen.
  destruct (dfs (visit_all payroll_files)) as [| df0 tables].
  - injection Hc as <- _ _. by destruct Hrows.
  - destruct (concat _) as [merged |]; cbn [mbind result_bind] in Hc; [| done].
    destruct (reorder_like_reference _ _); [| done].
    injection Hc as _ <- _. intros Hp. by rewrite Hp in Hlen.
Qed.

Lemma completed_run_has_rows_witness :
  true = true ∧
  [mkFile "Regular-01152024.xlsx" (Some Samples.sheet)] ≠ [] ∧
  Samples.consolidated.1.2 ≠ [] ∧
  rows Samples.consolidated.1.1 ≠ [] ∧
  columns Samples.consolidated.1.1 ≠ [] ∧
  ∃ ref cols,
    Some (mkFile "REF-01152024.xlsx" (Some Samples.sheet)) = Some ref ∧
    derive_ref_columns ref = Ok cols ∧
    consolidate [mkFile "Regular-01152024.xlsx" (Some Samples.sheet)] cols
    = Ok (Samples.consolidated.1.1, Samples.consolidated.1.2,
          Samples.consolidated.2).
Proof.
  apply (completed_run_has_rows
           (Some (mkFile "REF-01152024.xlsx" (Some Samples.sheet)))
           [mkFile "Regular-01152024.xlsx" (Some Samples.sheet)] true
           Samples.consolidated.1.1 Samples.consolidated.1.2
           Samples.consolidated.2).
  vm_compute. reflexivity.
Defined.

Section UploadOrder.

Lemma attempted_sublist_of seen l : sublist (attempted seen l) l.
Proof.
  revert seen; induction l as [| uf l IH]; intros seen; [constructor |].
  cbn [attempted]. destruct (accepted uf); [case_decide |].
  - by apply sublist_cons.
  - by apply sublist_skip.
  - by apply sublist_cons.
Qed.

Lemma duplicates_sublist_of seen l : sublist (duplicates seen l) l.
Proof.
  revert seen; induction l as [| uf l IH]; intros seen; [constructor |].
  cbn [duplicates]. destruct (accepted uf); [case_decide |].
  - by apply sublist_skip.
  - by apply sublist_cons.
  - by apply sublist_cons.
Qed.

Lemma processed_names_sublist (l : list file_like) :
  sublist (omap processed_name l) (map name l).
Proof.
  induction l as [| uf l IH]; [constructor |].
  cbn [omap list_omap map].
  destruct (extraction uf) as [df | e] eqn:He.
  - destruct (outcome_ok _ _ He) as (_ & -> & _). by apply sublist_skip.
  - destruct (outcome_raise _ _ He) as (_ & -> & _). by apply sublist_cons.
Qed.

Lemma sublist_map_name (l1 l2 : list file_like) :
  sublist l1 l2 → sublist (map name l1) (map name l2).
Proof.
  induction 1; cbn [map]; [constructor | by apply sublist_skip
                                       | by apply sublist_cons].
Qed.

Lemma singleton_sublist (x : file_like) l : x ∈ l → sublist [x] l.
Proof.
  induction l as [| y l IH]; [by intros ?%elem_of_nil |].
  intros [-> | Hx]%elem_of_cons.
  - apply sublist_skip, sublist_nil_l.
  - by apply sublist_cons, IH.
Qed.

Lemma duplicates_have_predecessor seen l uf :
  uf ∈ duplicates seen l →
  accepted uf = true ∧
  (base_of uf ∈ seen ∨
   ∃ l1 g l2, sublist (l1 ++ g :: l2 ++ [uf]) l ∧
              accepted g = true ∧ base_of g = base_of uf).
Proof.
  revert seen; induction l as [| x l IH]; intros seen; cbn [duplicates].
  { by intros ?%elem_of_nil. }
  destruct (accepted x) eqn:Hx; [case_decide as Hin |].
  - intros [-> | Huf]%elem_of_cons; [by split; [| left] |].
    destruct (IH _ Huf) as (Ha & [Hs | (l1 & g & l2 & Hsub & Hg & Hb)]).
    + split; [done | by left].
    + split; [done |]. right. exists l1, g, l2.
      split; [by apply sublist_cons | done].
  - intros Huf.
    destruct (IH _ Huf) as (Ha & [Hs | (l1 & g & l2 & Hsub & Hg & Hb)]).
    + split; [done |].
      apply elem_of_union in Hs as [Hs | Hs]; [| by left].
      apply elem_of_singleton in Hs. right. exists [], x, [].
      split; [| done]. cbn [app]. apply sublist_skip.
      apply singleton_sublist.
      eapply elem_of_sublist; [exact Huf | apply duplicates_sublist_of].
    + split; [done |]. right. exists l1, g, l2.
      split; [by apply sublist_cons | done].
  - intros Huf.
    destruct (IH _ Huf) as (Ha & [Hs | (l1 & g & l2 & Hsub & Hg & Hb)]).
    + split; [done | by left].
    + split; [done |]. right. exists l1, g, l2.
      split; [by apply sublist_cons | done].
Qed.

End UploadOrder.

(** X17. The processed names and the skipped names keep the upload
    order: each list is a subsequence of the names of the uploads. *)
Theorem names_follow_upload_order (uploads : list file_like) :
  sublist (processed (visit_all uploads)) (map name uploads) ∧
  sublist (skipped (visit_all uploads)) (map name uploads).
Proof.
  destruct (visit_all_spec uploads) as (_ & -> & ->). split.
  - etrans; [apply processed_names_sublist |].
    apply sublist_map_name, attempted_sublist_of.
  - apply sublist_map_name, duplicates_sublist_of.
Qed.

(** X18. A name is put under [skipped] only for a file with the accepted
    extension that comes after another accepted file with the same base
    name. *)
Theorem skipped_only_after_same_base (uploads : list file_like) (n : string) :
  n ∈ skipped (visit_all uploads) →
  ∃ l1 g l2 uf,
    sublist (l1 ++ g :: l2 ++ [uf]) uploads ∧ name uf = n ∧
    accepted g = true ∧ accepted uf = true ∧ base_of g = base_of uf.
Proof.
  destruct (visit_all_spec uploads) as (_ & _ & ->).
  intros (uf & -> & Huf)%elem_of_map.
  destruct (duplicates_have_predecessor _ _ _ Huf)
    as (Ha & [Hs | (l1 & g & l2 & Hsub & Hg & Hb)]).
  - by apply elem_of_empty in Hs.
  - by exists l1, g, l2, uf.
Qed.

Lemma skipped_only_after_same_base_witness :
  ∃ l1 g l2 uf,
    sublist (l1 ++ g :: l2 ++ [uf])
      [mkFile "A-01152024.xlsx" None; mkFile "A-01152024.XLSX" None] ∧
    name uf = "A-01152024.XLSX" ∧
    accepted g = true ∧ accepted uf = true ∧ base_of g = base_of uf.
Proof.
  apply (skipped_only_after_same_base
           [mkFile "A-01152024.xlsx" None; mkFile "A-01152024.XLSX" None]
           "A-01152024.XLSX").
  vm_compute. apply list_elem_of_singleton. reflexivity.
Defined.

(** ** Worked scenarios *)

Section Scenarios.

Example reference_order :
  derive_ref_columns
    (mkFile "REF-01152024.xlsx"
       (Some (mkFrame ["Employee ID*"; "Name"; "Amount"] [])))
  = Ok ["Payroll Type"; "Payroll Date"; "Month"; "Cutoff Type";
        "Employee ID*"; "Name"; "Amount"].
Proof. vm_compute. reflexivity. Qed.

Example first_cutoff_file :
  fields_of (process_payroll_file
               (mkFile "Regular-01152024.xlsx" (Some Samples.sheet)))
  = Some (["Payroll Type"; "Payroll Date"; "Month"; "Cutoff Type";
           "Employee ID*"; "Name"],
          [(CStr "Regular", CTimestamp (Date 2024 1 15), CStr "January",
            CStr "First Cutoff");
           (CStr "Regular", CTimestamp (Date 2024 1 15), CStr "January",
            CStr "First Cutoff")]).
Proof. vm_compute. reflexivity. Qed.

Example second_cutoff_file :
  fields_of (process_payroll_file
               (mkFile "Regular-01312024.xlsx" (Some Samples.plain)))
  = Some (["Payroll Type"; "Payroll Date"; "Month"; "Cutoff Type"; "Name"],
          [(CStr "Regular", CTimestamp (Date 2024 1 31), CStr "January",
            CStr "Second Cutoff")]).
Proof. vm_compute. reflexivity. Qed.

Example identifier_with_line_feed :
  three_hyphen_six ("012-345678" +:+ line_feed) = false ∧
  fields_of (process_payroll_file
               (mkFile "Regular-01152024.xlsx"
                  (Some Samples.trailing)))
  = Some (["Payroll Type"; "Payroll Date"; "Month"; "Cutoff Type";
           "Employee ID*"],
          [(CStr "Regular", CTimestamp (Date 2024 1 15), CStr "January",
            CStr "First Cutoff")]).
Proof. split; vm_compute; reflexivity. Qed.

Example no_hyphen_file :
  fields_of (process_payroll_file
               (mkFile "Regular.xlsx" (Some Samples.plain)))
  = Some (["Payroll Type"; "Payroll Date"; "Month"; "Cutoff Type"; "Name"],
          [(CStr "Regular", CNull, CNull, CStr "Other")]).
Proof. vm_compute. reflexivity. Qed.

Example invalid_date_file :
  fields_of (process_payroll_file
               (mkFile "Regular-02302024.xlsx" (Some Samples.plain)))
  = Some (["Payroll Type"; "Payroll Date"; "Month"; "Cutoff Type"; "Name"],
          [(CStr "Regular", CNull, CNull, CStr "Other")]).
Proof. vm_compute. reflexivity. Qed.

Example same_base_twice :
  match consolidate
          [mkFile "Regular-01152024.xlsx" (Some Samples.sheet);
           mkFile "Regular-01152024.xlsx" (Some Samples.sheet)] ["Name"] with
  | Ok (t, p, s) => Some (columns t, length (rows t), p, s)
  | Raise _ => None
  end
  = Some (["Name"; "Payroll Type"; "Payroll Date"; "Month"; "Cutoff Type";
           "Employee ID*"],
          2, ["Regular-01152024.xlsx"], ["Regular-01152024.xlsx"]).
Proof. vm_compute. reflexivity. Qed.

Example unreadable_file_is_passed_over :
  match consolidate
          [mkFile "A-01152024.xlsx" None;
           mkFile "B-01312024.xlsx" (Some Samples.plain)] [] with
  | Ok (t, p, s) => Some (length (rows t), p, s)
  | Raise _ => None
  end
  = Some (1, ["B-01312024.xlsx"], []).
Proof. vm_compute. reflexivity. Qed.

Example numbered_sibling_lands_next_to_its_base :
  final_order ["B"; "Pay2"; "A"; "Pay"; "X9"; "9"] ["A"; "Pay"; "Z"; "B"; "A"]
  = ["A"; "Pay"; "Pay2"; "B"; "X9"; "9"].
Proof. vm_compute. reflexivity. Qed.

Example digits_before_a_final_line_feed :
  re_sub_trailing_digits ("Earn12" +:+ line_feed) = "Earn" +:+ line_feed ∧
  re_sub_trailing_digits "Earn12" = "Earn" ∧
  re_sub_trailing_digits "a1b22" = "a1b".
Proof. vm_compute. auto. Qed.

Example single_digit_month_is_read :
  strptime_mdY "01152024" = Some (Date 2024 1 15) ∧
  strptime_mdY "1152024" = Some (Date 2024 11 5) ∧
  strptime_mdY "011520245" = None ∧
  strptime_mdY "02292023" = None.
Proof. vm_compute. auto. Qed.

End Scenarios.
